(** * NoteRoom: the note store (utils/storage.ts) and its types (types/notes.ts)

    A shallow embedding of the [storage] object: the CRUD operations over the
    collection kept as JSON in one localStorage slot, and the pure [filter].
    The browser (localStorage, JSON, Date.now, crypto.randomUUID, console) is
    an interface, [Platform]; the operations are written against it in a
    state monad over the part of the browser they can change.

    The second half of the development covers the callers of the store: the
    handlers of the Dashboard, NoteCapture, NoteList and NoteEditor
    components, the long-content test of NoteCard and utils/colors.ts. *)

From Stdlib Require Import ZArith Lia Ascii String List Bool Sorted Permutation.
From stdpp Require Import base tactics option list numbers strings countable gmap.

Open Scope Z_scope.

(** ** ECMAScript built-ins on strings

    A string is a sequence of UTF-16 code units. The model covers the code
    units U+0000 to U+00FF (one [ascii] each), where [toLowerCase] maps a
    code unit to a code unit. Strings of any code units, on which it does
    not, are in [Utf16] further down. *)
Module JS.

(** ToBoolean on a string: only the empty string is falsy. *)
Definition truthy (s : string) : bool :=
  match s with EmptyString => false | String _ _ => true end.

(** ToBoolean on [boolean | undefined]. *)
Definition truthy_opt (b : option bool) : bool :=
  match b with Some b => b | None => false end.

(** WhiteSpace and LineTerminator code units below 256: TAB, LF, VT, FF, CR,
    SP and NBSP. *)
Definition isWhiteSpace (c : ascii) : bool :=
  match c with
  | "009" | "010" | "011" | "012" | "013" | " " | "160" => true
  | _ => false
  end%char.

Fixpoint trimStart (s : string) : string :=
  match s with
  | EmptyString => EmptyString
  | String c s' => if isWhiteSpace c then trimStart s' else s
  end.

Fixpoint trimEnd (s : string) : string :=
  match s with
  | EmptyString => EmptyString
  | String c s' =>
      match trimEnd s' with
      | EmptyString => if isWhiteSpace c then EmptyString else String c EmptyString
      | t => String c t
      end
  end.

(** String.prototype.trim *)
Definition trim (s : string) : string := trimEnd (trimStart s).

(** The lower-case mapping of one code unit: A-Z, and the Latin-1 capitals
    U+00C0 to U+00DE except the multiplication sign U+00D7, move up by 32. *)
Definition lowerUnit (c : ascii) : ascii :=
  let n := nat_of_ascii c in
  if ((65 <=? n) && (n <=? 90)
      || (192 <=? n) && (n <=? 222) && negb (n =? 215))%nat
  then ascii_of_nat (n + 32) else c.

(** String.prototype.toLowerCase *)
Fixpoint toLowerCase (s : string) : string :=
  match s with
  | EmptyString => EmptyString
  | String c s' => String (lowerUnit c) (toLowerCase s')
  end.

(** [startsWith s q]: [q] is found in [s] at position 0. *)
Fixpoint startsWith (s q : string) : bool :=
  match q, s with
  | EmptyString, _ => true
  | String _ _, EmptyString => false
  | String b q', String a s' => Ascii.eqb a b && startsWith s' q'
  end.

(** String.prototype.includes: [q] is found in [s] at some position. *)
Fixpoint includes (s q : string) : bool :=
  startsWith s q
  || match s with
     | EmptyString => false
     | String _ s' => includes s' q
     end.

(** Array.prototype.findIndex, [None] for the -1 of "no such element". *)
Fixpoint findIndex {A} (p : A -> bool) (l : list A) : option nat :=
  match l with
  | [] => None
  | x :: l' => if p x then Some 0%nat else S <$> findIndex p l'
  end.

(** [value || undefined] on [string | undefined]: an empty string goes too. *)
Definition or_undefined (s : option string) : option string :=
  match s with
  | Some s => if truthy s then Some s else None
  | None => None
  end.

(** [value || ''] on [string | undefined]. *)
Definition or_empty (s : option string) : string :=
  match s with
  | Some s => if truthy s then s else ""
  | None => ""
  end.

(** String.prototype.split with a separator of one code unit: the pieces
    between the separators, of which there is always at least one. *)
Fixpoint split (sep : ascii) (s : string) : list string :=
  match s with
  | EmptyString => [EmptyString]
  | String c s' =>
      if Ascii.eqb c sep then EmptyString :: split sep s'
      else match split sep s' with
           | [] => [String c EmptyString]
           | piece :: pieces => String c piece :: pieces
           end
  end.

(** Array.prototype.join on strings. *)
Fixpoint join (sep : string) (l : list string) : string :=
  match l with
  | [] => EmptyString
  | [x] => x
  | x :: l' => x +:+ sep +:+ join sep l'
  end.

(** Array.prototype.sort with a comparator: [a] goes before [b] when
    [cmp a b] is negative, after it when positive, and elements that compare
    equal keep their order (the sort is stable). For a consistent comparator
    that fixes the result, computed here by insertion. *)
Fixpoint insert {A} (cmp : A -> A -> Z) (x : A) (l : list A) : list A :=
  match l with
  | [] => [x]
  | y :: l' => if cmp x y <=? 0 then x :: l else y :: insert cmp x l'
  end.

Fixpoint sort {A} (cmp : A -> A -> Z) (l : list A) : list A :=
  match l with
  | [] => []
  | x :: l' => insert cmp x (sort cmp l')
  end.

(** [Math.ceil(n / d)] for a natural [n] and a positive [d]. *)
Definition ceil_div (n d : nat) : nat := ((n + (d - 1)) / d)%nat.

(** The upper-case mapping of one code unit: a-z, and the Latin-1 small
    letters U+00E0 to U+00FE except the division sign U+00F7, move down by
    32. The three small letters below 256 whose upper-case form is not one
    code unit below 256 (U+00B5, U+00DF, U+00FF) are outside the model, which
    leaves them. *)
Definition upperUnit (c : ascii) : ascii :=
  let n := nat_of_ascii c in
  if ((97 <=? n) && (n <=? 122)
      || (224 <=? n) && (n <=? 254) && negb (n =? 247))%nat
  then ascii_of_nat (n - 32) else c.

(** String.prototype.toUpperCase *)
Fixpoint toUpperCase (s : string) : string :=
  match s with
  | EmptyString => EmptyString
  | String c s' => String (upperUnit c) (toUpperCase s')
  end.

(** [s.charAt(0)] and [s.slice(1)] *)
Definition charAt0 (s : string) : string :=
  match s with
  | EmptyString => EmptyString
  | String c _ => String c EmptyString
  end.

Definition slice1 (s : string) : string :=
  match s with
  | EmptyString => EmptyString
  | String _ s' => s'
  end.

End JS.

(** ** types/notes.ts *)

Inductive NoteType := note | todo | snippet.

Record Note := {
  id : string;
  type : NoteType;
  content : string;
  createdAt : Z;
  updatedAt : Z;
  tags : option (list string);
  completed : option bool;
  title : option string
}.

(** [NoteType | 'all'] *)
Inductive TypeFilter := only (t : NoteType) | all.

(** [typeFilter] is an optional property: [None] when it is omitted. *)
Record NoteFilters := {
  searchQuery : string;
  typeFilter : option TypeFilter
}.

Definition NoteType_eqb (a b : NoteType) : bool :=
  match a, b with
  | note, note | todo, todo | snippet, snippet => true
  | _, _ => false
  end.

(** [Omit<Note, 'id' | 'createdAt' | 'updatedAt'>], the argument of [create]. *)
Record NoteInput := {
  in_type : NoteType;
  in_content : string;
  in_tags : option (list string);
  in_completed : option bool;
  in_title : option string
}.

(** [Partial<Omit<Note, 'id' | 'createdAt'>>], the declared type of the
    argument of [update]. A key is absent ([None]) or present; a present
    optional property may hold [undefined] ([Some None]). *)
Record NoteUpdates := {
  up_type : option NoteType;
  up_content : option string;
  up_updatedAt : option Z;
  up_tags : option (option (list string));
  up_completed : option (option bool);
  up_title : option (option string)
}.

(** What [update] can be handed at run time. Types are erased, and object
    spread copies every own key of its operand, so a caller that goes around
    the declared type can also bring the two omitted keys. *)
Record Bundle := {
  fields : NoteUpdates;
  extra_id : option string;
  extra_createdAt : option Z
}.

(** A bundle of the declared type carries neither omitted key. *)
Definition typed (u : NoteUpdates) : Bundle :=
  {| fields := u; extra_id := None; extra_createdAt := None |}.

(** [{...n, ...b}] field by field: a key present in [b] wins. *)
Definition spread (n : Note) (b : Bundle) : Note :=
  {| id := default (id n) (extra_id b);
     type := default (type n) (up_type (fields b));
     content := default (content n) (up_content (fields b));
     createdAt := default (createdAt n) (extra_createdAt b);
     updatedAt := default (updatedAt n) (up_updatedAt (fields b));
     tags := default (tags n) (up_tags (fields b));
     completed := default (completed n) (up_completed (fields b));
     title := default (title n) (up_title (fields b)) |}.

(** [{ ...n, ...b, updatedAt: now }] *)
Definition merge (n : Note) (b : Bundle) (now : Z) : Note :=
  let m := spread n b in
  {| id := id m; type := type m; content := content m;
     createdAt := createdAt m; updatedAt := now;
     tags := tags m; completed := completed m; title := title m |}.

(** [{ ...note, id: uuid, createdAt: c, updatedAt: u }] *)
Definition materialize (x : NoteInput) (uuid : string) (c u : Z) : Note :=
  {| id := uuid; type := in_type x; content := in_content x;
     createdAt := c; updatedAt := u;
     tags := in_tags x; completed := in_completed x; title := in_title x |}.

(** ** The browser

    What the store calls and does not define. [JSON_parse] returns [None]
    where JSON.parse throws; the source casts its result to [Note[]], and so
    does the model. The clock and the UUID generator are read in sequence:
    [Date_now n] is what the n-th call of Date.now() returns, [randomUUID n]
    the n-th UUID drawn. [storage_rejects v] tells the values on which
    localStorage.setItem throws (a quota that is exceeded, a disk that is
    full, storage that is switched off). *)
Class Platform := {
  JSON_parse : string -> option (list Note);
  JSON_stringify : list Note -> string;
  Date_now : nat -> Z;
  randomUUID : nat -> string;
  storage_rejects : string -> bool
}.

(** JSON on [Note[]]: parsing a serialisation gives the collection back, and
    a serialisation is never the empty string (it is at least the two
    brackets). *)
Class PlatformLaws (P : Platform) : Prop := {
  parse_stringify : forall ns, JSON_parse (JSON_stringify ns) = Some ns;
  stringify_truthy : forall ns, JS.truthy (JSON_stringify ns) = true
}.

(** Time does not run backwards between two reads of the clock. *)
Definition monotone_clock (P : Platform) : Prop :=
  forall i j : nat, (i <= j)%nat -> Date_now i <= Date_now j.

(** The part of the browser the store can change: the items of localStorage,
    how many times the clock and the UUID generator were asked, and the lines
    written by console.error (newest first). *)
Record World := {
  localStorage : gmap string string;
  reads : nat;
  draws : nat;
  console : list string
}.

(** A page that has just loaded, over an empty localStorage. *)
Definition fresh_world : World :=
  {| localStorage := ∅; reads := 0; draws := 0; console := [] |}.

(** Computations that run against the browser. *)
Definition IO (A : Type) : Type := World -> A * World.

#[global] Instance IO_ret : MRet IO := fun A (a : A) w => (a, w).
#[global] Instance IO_bind : MBind IO :=
  fun A B (k : A -> IO B) (m : IO A) w => k (m w).1 (m w).2.

Definition getItem (key : string) : IO (option string) :=
  fun w => (localStorage w !! key, w).

(** [true] when the item was stored, [false] when setItem threw. *)
Definition setItem (key value : string) `{Platform} : IO bool :=
  fun w =>
    if storage_rejects value then (false, w)
    else (true, {| localStorage := <[key := value]> (localStorage w);
                   reads := reads w; draws := draws w; console := console w |}).

Definition console_error (line : string) : IO unit :=
  fun w => (tt, {| localStorage := localStorage w; reads := reads w;
                   draws := draws w; console := line :: console w |}).

Definition now `{Platform} : IO Z :=
  fun w => (Date_now (reads w),
            {| localStorage := localStorage w; reads := S (reads w);
               draws := draws w; console := console w |}).

Definition uuid `{Platform} : IO string :=
  fun w => (randomUUID (draws w),
            {| localStorage := localStorage w; reads := reads w;
               draws := S (draws w); console := console w |}).

(** ** utils/storage.ts *)

Definition STORAGE_KEY : string := "noteroom-notes".

Module storage.
Section WithPlatform.
Context `{P : Platform}.

(** The [try] block runs to its end unless JSON.parse throws; the [None]
    branch of [JSON_parse] is the [catch] block. *)
Definition getAll : IO (list Note) :=
  stored ← getItem STORAGE_KEY;
  match stored with
  | None => mret []
  | Some stored =>
      if negb (JS.truthy stored) then mret []
      else match JSON_parse stored with
           | Some notes => mret notes
           | None =>
               _ ← console_error "Error reading from localStorage:";
               mret []
           end
  end.

(** The [catch] block is the branch where setItem threw. *)
Definition saveAll (notes : list Note) : IO unit :=
  stored ← setItem STORAGE_KEY (JSON_stringify notes);
  if stored : bool then mret tt
  else console_error "Error saving to localStorage:".

Definition getById (id' : string) : IO (option Note) :=
  notes ← getAll;
  mret (List.find (fun note => String.eqb (id note) id') notes).

Definition create (note' : NoteInput) : IO Note :=
  notes ← getAll;
  fresh ← uuid;
  created ← now;
  updated ← now;
  let newNote := materialize note' fresh created updated in
  _ ← saveAll (notes ++ [newNote]);
  mret newNote.

(** The result is [notes[index]] of the array after the assignment. *)
Definition update (id' : string) (updates : Bundle) : IO (option Note) :=
  notes ← getAll;
  match JS.findIndex (fun note => String.eqb (id note) id') notes with
  | None => mret None
  | Some index =>
      stamp ← now;
      let notes := alter (fun old => merge old updates stamp) index notes in
      _ ← saveAll notes;
      mret (notes !! index)
  end.

Definition delete (id' : string) : IO bool :=
  notes ← getAll;
  let filtered :=
    List.filter (fun note => negb (String.eqb (id note) id')) notes in
  if (length filtered =? length notes)%nat then mret false
  else _ ← saveAll filtered; mret true.

Definition filter (notes : list Note) (filters : NoteFilters) : list Note :=
  let filtered := notes in
  let filtered :=
    if JS.truthy (JS.trim (searchQuery filters)) then
      let query := JS.toLowerCase (searchQuery filters) in
      List.filter (fun note =>
        let contentMatch := JS.includes (JS.toLowerCase (content note)) query in
        let titleMatch :=
          (fun t => JS.includes (JS.toLowerCase t) query) <$> title note in
        let tagMatch :=
          existsb (fun tag => JS.includes (JS.toLowerCase tag) query)
            <$> tags note in
        contentMatch || JS.truthy_opt titleMatch || JS.truthy_opt tagMatch)
        filtered
    else filtered in
  let filtered :=
    match typeFilter filters with
    | Some (only t) =>
        List.filter (fun note => NoteType_eqb (type note) t) filtered
    | Some all | None => filtered
    end in
  filtered.

End WithPlatform.
End storage.

(** ** What the specification says of [filter], in its own words *)
Module Spec.

(** A case-insensitive substring match: some run of consecutive code units
    of [s] is [q] up to the case of its letters (two strings are equal up to
    case when their lower-case forms are equal). *)
Definition occurs_ignoring_case (q s : string) : Prop :=
  exists pre mid post,
    s = pre +:+ mid +:+ post /\ JS.toLowerCase mid = JS.toLowerCase q.

(** The match is against the content OR the title OR any of the tags. *)
Definition search_hit (q : string) (n : Note) : Prop :=
  occurs_ignoring_case q (content n)
  \/ (exists t, title n = Some t /\ occurs_ignoring_case q t)
  \/ (exists ts tag, tags n = Some ts /\ In tag ts /\ occurs_ignoring_case q tag).

(** Both conditions, each only when it applies: the search when the query is
    non-empty after trimming, the type when [typeFilter] names a type. *)
Definition selected (f : NoteFilters) (n : Note) : Prop :=
  (JS.trim (searchQuery f) <> "" -> search_hit (searchQuery f) n)
  /\ (forall t, typeFilter f = Some (only t) -> type n = t).

End Spec.

(** The test of the search branch of [filter], as the callback computes it
    from an already lower-cased query. *)
Definition search_test (query : string) (n : Note) : bool :=
  JS.includes (JS.toLowerCase (content n)) query
  || JS.truthy_opt ((fun t => JS.includes (JS.toLowerCase t) query) <$> title n)
  || JS.truthy_opt
       (existsb (fun tag => JS.includes (JS.toLowerCase tag) query) <$> tags n).

(** [filter] keeps a note when both of its passes keep it. *)
Definition keeps (f : NoteFilters) (n : Note) : bool :=
  (if JS.truthy (JS.trim (searchQuery f))
   then search_test (JS.toLowerCase (searchQuery f)) n else true)
  && match typeFilter f with
     | Some (only t) => NoteType_eqb (type n) t
     | Some all | None => true
     end.

(** ** [filter] beyond U+00FF

    [storage.filter] above runs on strings of code units below U+0100. Of a
    string its body asks three things: whether it is truthy once trimmed,
    its lower-case form, and whether it includes another string.
    [filter_body] is that body with the three left open, on any strings and
    any notes with a content, a title, tags and a type. *)
Section FilterBody.
Context {Str A : Type}.
Variable truthy_trimmed : Str -> bool.
Variable lower : Str -> Str.
Variable incl : Str -> Str -> bool.
Variable content_of : A -> Str.
Variable title_of : A -> option Str.
Variable tags_of : A -> option (list Str).
Variable type_of : A -> NoteType.

Definition filter_body (notes : list A) (searchQuery' : Str)
    (typeFilter' : option TypeFilter) : list A :=
  let filtered := notes in
  let filtered :=
    if truthy_trimmed searchQuery' then
      let query := lower searchQuery' in
      List.filter (fun note =>
        let contentMatch := incl (lower (content_of note)) query in
        let titleMatch := (fun t => incl (lower t) query) <$> title_of note in
        let tagMatch :=
          existsb (fun tag => incl (lower tag) query) <$> tags_of note in
        contentMatch || JS.truthy_opt titleMatch || JS.truthy_opt tagMatch)
        filtered
    else filtered in
  let filtered :=
    match typeFilter' with
    | Some (only t) =>
        List.filter (fun note => NoteType_eqb (type_of note) t) filtered
    | Some all | None => filtered
    end in
  filtered.

(** The notes that [filter_body] is to keep, in the words of the
    specification but for the match, which is said of the lower-case forms:
    that of the content, of the title or of one of the tags includes that of
    the query. *)
Definition lowered_hit (q : Str) (n : A) : Prop :=
  incl (lower (content_of n)) (lower q) = true
  \/ (exists t, title_of n = Some t /\ incl (lower t) (lower q) = true)
  \/ (exists ts tag, tags_of n = Some ts /\ In tag ts
                     /\ incl (lower tag) (lower q) = true).

Definition lowered_selected (q : Str) (tf : option TypeFilter) (n : A) : Prop :=
  (truthy_trimmed q = true -> lowered_hit q n)
  /\ (forall t, tf = Some (only t) -> type_of n = t).

End FilterBody.

(** Strings as sequences of UTF-16 code units of any value, and the built-ins
    that [filter] calls on them. [toLowerCase] is the mapping of the Unicode
    default case conversion for strings of Basic Latin, Latin-1 Supplement
    and the Greek letters U+0391 to U+03A9 and U+03B1 to U+03C9, with the
    rule of the final sigma; code units outside these are left as they are,
    which for some of them is not what the built-in does. *)
Module Utf16.

Definition str := list N.

Definition between (lo hi c : N) : bool := ((lo <=? c) && (c <=? hi))%N.

(** ToBoolean on a string. *)
Definition truthy (s : str) : bool :=
  match s with [] => false | _ :: _ => true end.

(** WhiteSpace and LineTerminator: TAB to CR, SP, NBSP, U+1680, U+2000 to
    U+200A, LS, PS, U+202F, U+205F, U+3000 and U+FEFF. *)
Definition isWhiteSpace (c : N) : bool :=
  (between 9 13 c || (c =? 32) || (c =? 160) || (c =? 5760)
   || between 8192 8202 c || (c =? 8232) || (c =? 8233) || (c =? 8239)
   || (c =? 8287) || (c =? 12288) || (c =? 65279))%N.

Fixpoint trimStart (s : str) : str :=
  match s with
  | [] => []
  | c :: s' => if isWhiteSpace c then trimStart s' else s
  end.

Fixpoint trimEnd (s : str) : str :=
  match s with
  | [] => []
  | c :: s' =>
      match trimEnd s' with
      | [] => if isWhiteSpace c then [] else [c]
      | t => c :: t
      end
  end.

(** String.prototype.trim *)
Definition trim (s : str) : str := trimEnd (trimStart s).

(** The capitals with a small form 32 code units up: A to Z, U+00C0 to
    U+00DE except the multiplication sign, and the Greek capitals (U+03A2 is
    not assigned). *)
Definition capital (c : N) : bool :=
  between 65 90 c || between 192 214 c || between 216 222 c
  || between 913 929 c || between 931 937 c.

Definition lowerUnit (c : N) : N := (if capital c then c + 32 else c)%N.

(** The code units with the property Cased: the letters of both cases, the
    two ordinal indicators and the micro sign. *)
Definition cased (c : N) : bool :=
  (capital c || between 97 122 c || (c =? 170) || (c =? 181) || (c =? 186)
   || between 223 246 c || between 248 255 c || between 945 969 c)%N.

(** The code units with the property Case_Ignorable: apostrophe, full stop,
    colon, circumflex, grave, and in Latin-1 the diaeresis, the soft hyphen,
    the macron, the acute, the middle dot and the cedilla. *)
Definition case_ignorable (c : N) : bool :=
  ((c =? 39) || (c =? 46) || (c =? 58) || (c =? 94) || (c =? 96)
   || (c =? 168) || (c =? 173) || (c =? 175) || (c =? 180) || (c =? 183)
   || (c =? 184))%N.

(** What follows is some case-ignorable code units and then a cased letter. *)
Fixpoint cased_ahead (s : str) : bool :=
  match s with
  | [] => false
  | c :: s' => cased c || (case_ignorable c && cased_ahead s')
  end.

(** The lower-case form of [s], where [behind] tells whether what came
    before [s] ends with a cased letter and then some case-ignorable code
    units. A capital sigma (U+03A3) with such a letter behind it and none
    ahead is the last letter of a word: it becomes the final small sigma
    (U+03C2), and the small sigma (U+03C3) anywhere else. *)
Fixpoint lower_from (behind : bool) (s : str) : str :=
  match s with
  | [] => []
  | c :: s' =>
      (if (c =? 931)%N && behind && negb (cased_ahead s') then 962%N
       else lowerUnit c)
      :: lower_from (cased c || (case_ignorable c && behind)) s'
  end.

(** String.prototype.toLowerCase *)
Definition toLowerCase (s : str) : str := lower_from false s.

Fixpoint startsWith (s q : str) : bool :=
  match q, s with
  | [], _ => true
  | _ :: _, [] => false
  | b :: q', a :: s' => (a =? b)%N && startsWith s' q'
  end.

(** String.prototype.includes *)
Fixpoint includes (s q : str) : bool :=
  startsWith s q
  || match s with
     | [] => false
     | _ :: s' => includes s' q
     end.

Record Note := {
  id : str;
  type : NoteType;
  content : str;
  createdAt : Z;
  updatedAt : Z;
  tags : option (list str);
  completed : option bool;
  title : option str
}.

Record NoteFilters := {
  searchQuery : str;
  typeFilter : option TypeFilter
}.

(** [storage.filter], on these strings. *)
Definition filter (notes : list Note) (filters : NoteFilters) : list Note :=
  filter_body (fun s => truthy (trim s)) toLowerCase includes
    content title tags type notes (searchQuery filters) (typeFilter filters).

End Utf16.

(** A string of code units below U+0100 as a string of code units, and
    notes and criteria likewise. *)
Definition widen (s : string) : Utf16.str :=
  map N_of_ascii (list_ascii_of_string s).

Definition widen_note (n : Note) : Utf16.Note :=
  {| Utf16.id := widen (id n);
     Utf16.type := type n;
     Utf16.content := widen (content n);
     Utf16.createdAt := createdAt n;
     Utf16.updatedAt := updatedAt n;
     Utf16.tags := map widen <$> tags n;
     Utf16.completed := completed n;
     Utf16.title := widen <$> title n |}.

Definition widen_filters (f : NoteFilters) : Utf16.NoteFilters :=
  {| Utf16.searchQuery := widen (searchQuery f);
     Utf16.typeFilter := typeFilter f |}.

(** ** Equality up to case, said without [toLowerCase] *)
Module Caseless.

(** The codes of the capitals below U+0100. *)
Definition capital (n : nat) : bool :=
  ((65 <=? n) && (n <=? 90) || (192 <=? n) && (n <=? 214)
   || (216 <=? n) && (n <=? 222))%nat.

(** Two code units are the same letter when they are equal, or one is a
    capital and the other its small form, 32 code units up. *)
Definition same_letter (a b : ascii) : bool :=
  let x := nat_of_ascii a in
  let y := nat_of_ascii b in
  ((x =? y) || capital x && (y =? x + 32) || capital y && (x =? y + 32))%nat.

(** Two strings are equal up to case when they have the same length and, at
    each position, the same letter. *)
Fixpoint same (s t : string) : bool :=
  match s, t with
  | EmptyString, EmptyString => true
  | String a s', String b t' => same_letter a b && same s' t'
  | _, _ => false
  end.

(** [q] is in [s] up to case: a run of consecutive code units of [s] is
    equal to [q] up to case. *)
Definition occurs (q s : string) : Prop :=
  exists pre mid post, s = pre +:+ mid +:+ post /\ same mid q = true.

(** The white space below U+0100: TAB, LF, VT, FF, CR, SP and NBSP. *)
Definition blank_unit (c : ascii) : Prop :=
  In (nat_of_ascii c) [9; 10; 11; 12; 13; 32; 160]%nat.

(** A string of white space only (the empty string is one). *)
Definition blank (s : string) : Prop :=
  Forall blank_unit (list_ascii_of_string s).

End Caseless.

(** The 256 code units below U+0100. *)
Definition code_units : list ascii := map ascii_of_nat (seq 0 256).

(** ** Histories of the store *)

(** The collection as [getAll] reads it. *)
Definition notes_of `{Platform} (w : World) : list Note := (storage.getAll w).1.

(** A mutating call of a collaborator; [update] is called at its declared
    type. *)
Inductive Op :=
| op_create (x : NoteInput)
| op_update (id' : string) (u : NoteUpdates)
| op_delete (id' : string).

Definition step `{Platform} (o : Op) (w : World) : World :=
  match o with
  | op_create x => (storage.create x w).2
  | op_update id' u => (storage.update id' (typed u) w).2
  | op_delete id' => (storage.delete id' w).2
  end.

Definition run `{Platform} (ops : list Op) (w : World) : World :=
  fold_left (fun w o => step o w) ops w.

(** The two system-managed columns that [update] is not to touch. *)
Definition identity_of (n : Note) : string * Z := (id n, createdAt n).

(** Every stored note was created before it was last updated, and not after
    the next read of the clock. *)
Definition settled `{Platform} (w : World) : Prop :=
  forall n, In n (notes_of w) ->
    createdAt n <= updatedAt n /\ createdAt n <= Date_now (reads w).

(** crypto.randomUUID() does not return the same UUID twice. *)
Definition distinct_uuids (P : Platform) : Prop :=
  forall i j : nat, randomUUID i = randomUUID j -> i = j.

(** The ids of the stored notes are unique, and each is one of the UUIDs
    drawn so far. *)
Definition ids_drawn `{Platform} (w : World) : Prop :=
  List.NoDup (map id (notes_of w))
  /\ forall n, In n (notes_of w) ->
       exists k, (k < draws w)%nat /\ id n = randomUUID k.

(** ** utils/colors.ts *)
Module colors.

Definition getTypeColorClasses (type' : NoteType) : string :=
  match type' with
  | todo => "bg-green-900/30 text-green-400 border-green-700/50"
  | snippet => "bg-purple-900/30 text-purple-400 border-purple-700/50"
  | note => "bg-blue-900/30 text-blue-400 border-blue-700/50"
  end.

Definition getTypeButtonClasses (type' : NoteType) (isActive : bool) : string :=
  let baseClasses :=
    "px-3 py-1.5 rounded-md text-xs font-medium transition-all duration-200 border" in
  if negb isActive then
    baseClasses +:+ " bg-zinc-800 text-zinc-300 border-zinc-700 hover:bg-zinc-700"
  else
    match type' with
    | todo =>
        baseClasses +:+ " bg-green-900/30 text-green-400 border-green-700/50 shadow-md"
    | snippet =>
        baseClasses +:+ " bg-purple-900/30 text-purple-400 border-purple-700/50 shadow-md"
    | note =>
        baseClasses +:+ " bg-blue-900/30 text-blue-400 border-blue-700/50 shadow-md"
    end.

End colors.

(** ** components/react/NoteCard.tsx *)
Module NoteCard.

Definition estimatedLines (n : Note) : nat :=
  JS.ceil_div (String.length (content n)) 50.

Definition isLongContent (n : Note) : bool :=
  (8 <? estimatedLines n)%nat
  || (8 <? length (JS.split "010" (content n)))%nat.

End NoteCard.

(** The value of a [NoteType]: the string itself. *)
Definition NoteType_string (t : NoteType) : string :=
  match t with note => "note" | todo => "todo" | snippet => "snippet" end.

(** ** components/react/Dashboard.tsx

    The state of the component and its handlers. A handler is the function
    from the state it is called in to the state after the updates it queues:
    each of them passes React an updater [(prev) => ...], and React applies
    the updaters in the order they were queued. Rendering is not modelled. *)
Module Dashboard.

(** [ToastData] of ToastContainer.tsx. Its [type] is the [ToastType] of
    Toast.tsx; the handlers here only ever produce "success". *)
Record ToastData := {
  toast_id : string;
  message : string;
  toast_type : string
}.

Record state := {
  filters : NoteFilters;
  refreshKey : Z;
  toasts : list ToastData
}.

(** The three [useState] initial values. *)
Definition initial : state :=
  {| filters := {| searchQuery := ""; typeFilter := Some all |};
     refreshKey := 0;
     toasts := [] |}.

Section WithPlatform.
Context `{P : Platform}.

(** [type'] is [None] when the caller leaves the parameter to its default. *)
Definition showToast (message' : string) (type' : option string) (d : state)
  : IO state :=
  id' ← uuid;
  mret {| filters := filters d; refreshKey := refreshKey d;
          toasts := toasts d ++ [{| toast_id := id'; message := message';
                                    toast_type := default "success" type' |}] |}.

Definition removeToast (id' : string) (d : state) : state :=
  {| filters := filters d; refreshKey := refreshKey d;
     toasts := List.filter (fun toast => negb (String.eqb (toast_id toast) id'))
                 (toasts d) |}.

Definition handleSearchChange (query : string) (d : state) : state :=
  {| filters := {| searchQuery := query;
                   typeFilter := typeFilter (filters d) |};
     refreshKey := refreshKey d; toasts := toasts d |}.

(** The onClick of the four type filter buttons. *)
Definition setTypeFilter (choice : TypeFilter) (d : state) : state :=
  {| filters := {| searchQuery := searchQuery (filters d);
                   typeFilter := Some choice |};
     refreshKey := refreshKey d; toasts := toasts d |}.

Definition handleNoteUpdate (d : state) : state :=
  {| filters := filters d; refreshKey := refreshKey d + 1; toasts := toasts d |}.

Definition handleNoteCreate (type' : NoteType) (content' : string)
    (title' : option string) (d : state) : IO state :=
  _ ← storage.create {| in_type := type'; in_content := content';
                        in_tags := None; in_completed := None;
                        in_title := JS.or_undefined title' |};
  let typeName :=
    JS.toUpperCase (JS.charAt0 (NoteType_string type'))
    +:+ JS.slice1 (NoteType_string type') in
  d ← showToast (typeName +:+ " created successfully!") None d;
  mret (handleNoteUpdate d).

End WithPlatform.
End Dashboard.

(** ** components/react/NoteCapture.tsx *)
Module NoteCapture.

Record form := {
  form_content : string;
  form_title : string;
  form_type : NoteType
}.

Definition initial : form :=
  {| form_content := ""; form_title := ""; form_type := note |}.

(** [onNoteCreate] is the [handleNoteCreate] of the Dashboard. *)
Definition handleSubmit `{Platform} (f : form) (d : Dashboard.state)
  : IO (form * Dashboard.state) :=
  if JS.truthy (JS.trim (form_content f)) then
    d ← Dashboard.handleNoteCreate (form_type f) (JS.trim (form_content f))
          (JS.or_undefined (Some (JS.trim (form_title f)))) d;
    mret ({| form_content := ""; form_title := ""; form_type := form_type f |},
          d)
  else mret (f, d).

End NoteCapture.

(** ** components/react/NoteList.tsx

    [onShowToast] and [onNoteUpdate] are the [showToast] and the
    [handleNoteUpdate] of the Dashboard. The change of [refreshKey] makes
    React mount the list anew, which is not modelled: the state below is the
    one the handler leaves. *)
Module NoteList.

Record state := {
  notes : list Note;
  editingNote : option Note;
  noteToDelete : option Note
}.

(** What the list shows ([filteredNotes]): the effect that runs whenever the
    notes or the filters change. *)
Definition visible (notes' : list Note) (filters' : NoteFilters) : list Note :=
  JS.sort (fun a b => updatedAt b - updatedAt a) (storage.filter notes' filters').

Section WithPlatform.
Context `{P : Platform}.

Definition loadNotes (s : state) : IO state :=
  allNotes ← storage.getAll;
  mret {| notes := allNotes; editingNote := editingNote s;
          noteToDelete := noteToDelete s |}.

Definition handleDeleteClick (n : Note) (s : state) : state :=
  {| notes := notes s; editingNote := editingNote s; noteToDelete := Some n |}.

Definition handleDeleteCancel (s : state) : state :=
  {| notes := notes s; editingNote := editingNote s; noteToDelete := None |}.

Definition handleDeleteConfirm (s : state) (d : Dashboard.state)
  : IO (state * Dashboard.state) :=
  match noteToDelete s with
  | Some n =>
      _ ← storage.delete (id n);
      d ← Dashboard.showToast "Note deleted successfully" None d;
      s ← loadNotes s;
      mret (handleDeleteCancel s, Dashboard.handleNoteUpdate d)
  | None => mret (s, d)
  end.

Definition handleToggleComplete (id' : string) (s : state) (d : Dashboard.state)
  : IO (state * Dashboard.state) :=
  found ← storage.getById id';
  match found with
  | Some n =>
      let newCompleted := negb (JS.truthy_opt (completed n)) in
      _ ← storage.update id'
            (typed {| up_type := None; up_content := None; up_updatedAt := None;
                      up_tags := None; up_title := None;
                      up_completed := Some (Some newCompleted) |});
      d ← Dashboard.showToast
            (if newCompleted then "Todo marked as complete!"
             else "Todo marked as incomplete") None d;
      s ← loadNotes s;
      mret (s, Dashboard.handleNoteUpdate d)
  | None => mret (s, d)
  end.

Definition handleEdit (n : Note) (s : state) : state :=
  {| notes := notes s; editingNote := Some n; noteToDelete := noteToDelete s |}.

Definition handleEditClose (s : state) (d : Dashboard.state)
  : IO (state * Dashboard.state) :=
  s ← loadNotes {| notes := notes s; editingNote := None;
                   noteToDelete := noteToDelete s |};
  mret (s, Dashboard.handleNoteUpdate d).

End WithPlatform.
End NoteList.

(** ** The NoteEditor component (it follows SearchBar in SearchBar.tsx) *)
Module NoteEditor.

Record form := {
  form_content : string;
  form_title : string;
  form_type : NoteType;
  form_tags : string;
  form_completed : bool;
  isSaving : bool;
  error : string
}.

(** The [useState] initial values, from the note that is edited. *)
Definition open (n : Note) : form :=
  {| form_content := content n;
     form_title := JS.or_empty (title n);
     form_type := type n;
     form_tags := JS.or_empty (JS.join ", " <$> tags n);
     form_completed := JS.truthy_opt (completed n);
     isSaving := false;
     error := "" |}.

(** [tags.split(',').map((t) => t.trim()).filter((t) => t.length > 0)] *)
Definition parseTags (tags' : string) : list string :=
  List.filter (fun t => (0 <? String.length t)%nat)
    (map JS.trim (JS.split "," tags')).

(** The object handed to [storage.update]. *)
Definition updates (f : form) : NoteUpdates :=
  let tagArray := parseTags (form_tags f) in
  {| up_content := Some (form_content f);
     up_title := Some (JS.or_undefined (Some (form_title f)));
     up_type := Some (form_type f);
     up_tags := Some (if (0 <? length tagArray)%nat then Some tagArray
                      else None);
     up_completed := Some (if NoteType_eqb (form_type f) todo
                           then Some (form_completed f) else None);
     up_updatedAt := None |}.

(** [note'] is the note the editor was opened on, [onClose] the
    [handleEditClose] of the list. Nothing in the [try] block throws here,
    so the [catch] block is not reached and [finally] ends it. *)
Definition handleSubmit `{Platform} (note' : Note) (f : form)
    (s : NoteList.state) (d : Dashboard.state)
  : IO (form * NoteList.state * Dashboard.state) :=
  _ ← storage.update (id note') (typed (updates f));
  d ← Dashboard.showToast "Note updated successfully!" None d;
  sd ← NoteList.handleEditClose s d;
  mret ({| form_content := form_content f; form_title := form_title f;
           form_type := form_type f; form_tags := form_tags f;
           form_completed := form_completed f;
           isSaving := false; error := "" |}, sd.1, sd.2).

End NoteEditor.

(** ** Vocabulary of the statements about the components *)

(** How many times a code unit occurs in a string. *)
Fixpoint occurrences (c : ascii) (s : string) : nat :=
  match s with
  | EmptyString => 0
  | String a s' => (if Ascii.eqb a c then 1 else 0) + occurrences c s'
  end.

(** A tag as the editor produces them: not empty, with no white space
    around it and no comma in it. *)
Definition clean_tag (t : string) : Prop :=
  t <> "" /\ JS.trim t = t /\ occurrences "," t = 0%nat.

(** A note that the editor writes back as it is: no empty title, no empty
    list of tags and only clean tags, and a completion flag exactly on
    todos. *)
Definition editor_normal (n : Note) : Prop :=
  title n <> Some ""
  /\ match tags n with
     | Some ts => ts <> [] /\ Forall clean_tag ts
     | None => True
     end
  /\ match type n with
     | todo => exists b, completed n = Some b
     | _ => completed n = None
     end.

(** [n] with its updatedAt set to [t]. *)
Definition touched (n : Note) (t : Z) : Note :=
  {| id := id n; type := type n; content := content n;
     createdAt := createdAt n; updatedAt := t;
     tags := tags n; completed := completed n; title := title n |}.

(** No stored note was last updated after the next read of the clock. *)
Definition timely `{Platform} (w : World) : Prop :=
  forall n, In n (notes_of w) -> updatedAt n <= Date_now (reads w).

(** ** An in-memory browser

    A stand-in for the browser, to run the store on concrete inputs: the
    clock advances by one millisecond at every read, every UUID drawn is new,
    and the serialisation of a collection is the binary numeral of its
    code, after an opening bracket. [readonly] tells whether setItem
    throws (on every value). *)
Module Fake.

#[local] Instance NoteType_eq_dec : EqDecision NoteType.
Proof. solve_decision. Defined.

#[local] Instance Note_eq_dec : EqDecision Note.
Proof. solve_decision. Defined.

#[local] Instance NoteType_countable : Countable NoteType :=
  inj_countable'
    (fun t => match t with note => 0 | todo => 1 | snippet => 2 end%nat)
    (fun n => match n with 0 => note | 1 => todo | _ => snippet end%nat)
    (fun t => match t with note | todo | snippet => eq_refl end).

#[local] Instance Note_countable : Countable Note :=
  inj_countable'
    (fun n => (id n, type n, content n, createdAt n, updatedAt n,
               tags n, completed n, title n))
    (fun '(i, t, c, ca, ua, tg, co, ti) =>
       {| id := i; type := t; content := c; createdAt := ca; updatedAt := ua;
          tags := tg; completed := co; title := ti |})
    (fun n => match n with Build_Note _ _ _ _ _ _ _ _ => eq_refl end).

Fixpoint bits (p : positive) : string :=
  match p with
  | xH => ""
  | xO p => String "0" (bits p)
  | xI p => String "1" (bits p)
  end.

Fixpoint unbits (s : string) : option positive :=
  match s with
  | EmptyString => Some xH
  | String "0" s => xO <$> unbits s
  | String "1" s => xI <$> unbits s
  | String _ _ => None
  end.

Definition stringify (ns : list Note) : string :=
  String "[" (bits (encode ns)).

Definition parse (s : string) : option (list Note) :=
  match s with
  | String "[" r => unbits r ≫= decode
  | _ => None
  end.

Definition browser (readonly : bool) : Platform :=
  {| JSON_parse := parse;
     JSON_stringify := stringify;
     Date_now := fun n => 1700000000000 + Z.of_nat n;
     randomUUID := fun n => String "u" (bits (Pos.of_succ_nat n));
     storage_rejects := fun _ => readonly |}.

(** Storage that takes every write, and storage that takes none. *)
Definition rw : Platform := browser false.
Definition ro : Platform := browser true.

(** A world whose slot holds the serialisation of [ns]. *)
Definition holding (ns : list Note) : World :=
  {| localStorage := {[ STORAGE_KEY := stringify ns ]};
     reads := 0; draws := 0; console := [] |}.

End Fake.

(** Notes and inputs for the examples. *)
Module Sample.

Definition milk : Note :=
  {| id := "n1"; type := todo; content := "Buy milk";
     createdAt := 1600000000000; updatedAt := 1600000000500;
     tags := Some ["home"]; completed := Some false; title := None |}.

Definition cleanup : Note :=
  {| id := "n2"; type := snippet; content := "Refactor code";
     createdAt := 1600000001000; updatedAt := 1600000001000;
     tags := None; completed := None; title := Some "Cleanup" |}.

Definition draft : NoteInput :=
  {| in_type := note; in_content := "Call the plumber";
     in_tags := None; in_completed := None; in_title := None |}.

Definition no_change : NoteUpdates :=
  {| up_type := None; up_content := None; up_updatedAt := None;
     up_tags := None; up_completed := None; up_title := None |}.

Definition tick : NoteUpdates :=
  {| up_type := None; up_content := None; up_updatedAt := None;
     up_tags := None; up_completed := Some (Some true); up_title := None |}.

End Sample.

(** * Strings *)

Lemma app_cons (a : ascii) (s t : string) :
  String a s +:+ t = String a (s +:+ t).
Proof. reflexivity. Qed.

Lemma truthy_not_empty (s : string) : JS.truthy s = true <-> s <> "".
Proof. destruct s; simpl; split; congruence. Qed.

Lemma toLowerCase_app (a b : string) :
  JS.toLowerCase (a +:+ b) = JS.toLowerCase a +:+ JS.toLowerCase b.
Proof.
  induction a as [|x a IH]; [reflexivity|].
  rewrite app_cons. simpl. rewrite IH, app_cons. reflexivity.
Qed.

(** Lower-casing works unit by unit, so a split of the lower-case form is the
    image of a split of the string. *)
Lemma toLowerCase_split (a b s : string) :
  JS.toLowerCase s = a +:+ b ->
  exists s1 s2, s = s1 +:+ s2 /\ JS.toLowerCase s1 = a /\ JS.toLowerCase s2 = b.
Proof.
  revert s. induction a as [|x a IH]; intros s E.
  - exists "", s. auto.
  - destruct s as [|y s]; [discriminate|].
    rewrite app_cons in E. simpl in E. injection E as Ex Es.
    destruct (IH _ Es) as (s1 & s2 & -> & E1 & E2).
    exists (String y s1), s2. rewrite app_cons. simpl. rewrite Ex, E1. auto.
Qed.

Lemma startsWith_spec (s q : string) :
  JS.startsWith s q = true <-> exists post, s = q +:+ post.
Proof.
  revert s. induction q as [|b q IH]; intros s.
  - destruct s; simpl; split; eauto.
  - destruct s as [|a s]; simpl.
    + split; [discriminate|]. intros [post E]. discriminate.
    + rewrite andb_true_iff, Ascii.eqb_eq, IH. split.
      * intros [-> [post ->]]. exists post. reflexivity.
      * intros [post E]. rewrite app_cons in E. injection E as -> ->. eauto.
Qed.

Lemma includes_spec (s q : string) :
  JS.includes s q = true <-> exists pre post, s = pre +:+ q +:+ post.
Proof.
  induction s as [|a s IH].
  - change (JS.includes "" q) with (JS.startsWith "" q || false).
    rewrite orb_false_r, startsWith_spec. split.
    + intros [post E]. exists "", post. exact E.
    + intros (pre & post & E). destruct pre; [eauto|discriminate].
  - change (JS.includes (String a s) q)
      with (JS.startsWith (String a s) q || JS.includes s q).
    rewrite orb_true_iff, startsWith_spec, IH. split.
    + intros [[post E] | (pre & post & E)].
      * exists "", post. exact E.
      * exists (String a pre), post. rewrite app_cons, E. reflexivity.
    + intros (pre & post & E). destruct pre as [|x pre].
      * left. exists post. exact E.
      * right. rewrite app_cons in E. injection E as _ E. eauto.
Qed.

(** The source lower-cases both sides and searches: that is the match up to
    case of the specification. *)
Lemma includes_lower (s q : string) :
  JS.includes (JS.toLowerCase s) (JS.toLowerCase q) = true
  <-> Spec.occurs_ignoring_case q s.
Proof.
  rewrite includes_spec. split.
  - intros (pre & post & E).
    apply toLowerCase_split in E as (s1 & s23 & -> & E1 & E23).
    apply toLowerCase_split in E23 as (s2 & s3 & -> & E2 & E3).
    exists s1, s2, s3. auto.
  - intros (pre & mid & post & -> & E).
    exists (JS.toLowerCase pre), (JS.toLowerCase post).
    rewrite !toLowerCase_app, E. reflexivity.
Qed.

Lemma search_test_hit (q : string) (n : Note) :
  search_test (JS.toLowerCase q) n = true <-> Spec.search_hit q n.
Proof.
  unfold search_test, Spec.search_hit.
  rewrite !orb_true_iff, includes_lower.
  assert (Ht : JS.truthy_opt
            ((fun t => JS.includes (JS.toLowerCase t) (JS.toLowerCase q))
               <$> title n) = true
          <-> exists t, title n = Some t /\ Spec.occurs_ignoring_case q t).
  { destruct (title n) as [t|]; simpl.
    - rewrite includes_lower. split; [eauto|].
      intros (t' & [= <-] & H). exact H.
    - split; [discriminate|]. intros (t' & [=] & _). }
  assert (Hg : JS.truthy_opt
            (existsb (fun tag => JS.includes (JS.toLowerCase tag)
                                   (JS.toLowerCase q)) <$> tags n) = true
          <-> exists ts tag, tags n = Some ts /\ In tag ts
                             /\ Spec.occurs_ignoring_case q tag).
  { destruct (tags n) as [ts|]; simpl.
    - rewrite existsb_exists. split.
      + intros (tag & Hin & H). apply includes_lower in H. eauto.
      + intros (ts' & tag & [= <-] & Hin & H).
        exists tag. split; [exact Hin|]. apply includes_lower. exact H.
    - split; [discriminate|]. intros (ts' & tag & [=] & _). }
  rewrite Ht, Hg. tauto.
Qed.

(** * [filter] *)

Lemma NoteType_eqb_eq (a b : NoteType) : NoteType_eqb a b = true <-> a = b.
Proof. destruct a, b; simpl; split; congruence. Qed.

Lemma filter_twice {A} (p q : A -> bool) (l : list A) :
  List.filter q (List.filter p l) = List.filter (fun x => p x && q x) l.
Proof.
  induction l as [|x l IH]; [reflexivity|]. simpl.
  destruct (p x); simpl; [destruct (q x)|]; rewrite IH; reflexivity.
Qed.

Lemma filter_all {A} (p : A -> bool) (l : list A) :
  (forall x, In x l -> p x = true) -> List.filter p l = l.
Proof.
  induction l as [|x l IH]; intros H; [reflexivity|]. simpl.
  rewrite (H x) by (left; reflexivity).
  rewrite IH; [reflexivity|]. intros y Hy. apply H. right. exact Hy.
Qed.

(** The two passes of [filter] are one pass with [keeps]. *)
Lemma filter_keeps (notes : list Note) (f : NoteFilters) :
  storage.filter notes f = List.filter (keeps f) notes.
Proof.
  unfold storage.filter, keeps.
  destruct (JS.truthy (JS.trim (searchQuery f))),
    (typeFilter f) as [[t|]|]; simpl.
  - apply filter_twice.
  - apply filter_ext. intros n. rewrite andb_true_r. reflexivity.
  - apply filter_ext. intros n. rewrite andb_true_r. reflexivity.
  - reflexivity.
  - symmetry. apply filter_all. reflexivity.
  - symmetry. apply filter_all. reflexivity.
Qed.

Lemma keeps_selected (f : NoteFilters) (n : Note) :
  keeps f n = true <-> Spec.selected f n.
Proof.
  unfold keeps, Spec.selected. rewrite andb_true_iff.
  assert (Hs : (if JS.truthy (JS.trim (searchQuery f))
                then search_test (JS.toLowerCase (searchQuery f)) n
                else true) = true
               <-> (JS.trim (searchQuery f) <> ""
                    -> Spec.search_hit (searchQuery f) n)).
  { destruct (JS.truthy (JS.trim (searchQuery f))) eqn:E.
    - rewrite search_test_hit. apply truthy_not_empty in E. tauto.
    - split; [|reflexivity]. intros _ H.
      apply truthy_not_empty in H. congruence. }
  assert (Ht : match typeFilter f with
               | Some (only t) => NoteType_eqb (type n) t
               | _ => true
               end = true
               <-> (forall t, typeFilter f = Some (only t) -> type n = t)).
  { destruct (typeFilter f) as [[t|]|].
    - rewrite NoteType_eqb_eq. split.
      + intros -> t' [= <-]. reflexivity.
      + intros H. apply H. reflexivity.
    - split; [discriminate|reflexivity].
    - split; [discriminate|reflexivity]. }
  rewrite Hs, Ht. reflexivity.
Qed.

(** A pass of Array.prototype.filter with a test that decides [P] is the
    sub-list of the elements that satisfy [P]. *)
Lemma filter_decides {A} (p : A -> bool) (P : A -> Prop)
    `{!forall x, Decision (P x)} (l : list A) :
  (forall x, p x = true <-> P x) -> List.filter p l = base.filter P l.
Proof.
  intros Hp. induction l as [|x l IH]; [reflexivity|].
  simpl. rewrite filter_cons, IH.
  destruct (decide (P x)) as [HP|HP], (p x) eqn:E; try reflexivity.
  - apply Hp in HP. congruence.
  - apply Hp in E. contradiction.
Qed.

(** * The code units below U+0100, one by one *)

Lemma In_code_units (a : ascii) : In a code_units.
Proof.
  unfold code_units. apply in_map_iff. exists (nat_of_ascii a).
  split; [apply ascii_nat_embedding|].
  apply in_seq. pose proof (nat_ascii_bounded a). lia.
Qed.

(** A test that holds of each of the 256 code units holds of any. *)
Lemma for_all_units (p : ascii -> bool) :
  forallb p code_units = true -> forall a, p a = true.
Proof.
  intros H a. rewrite forallb_forall in H. apply H, In_code_units.
Qed.

Lemma lowerUnit_same (a b : ascii) :
  JS.lowerUnit a = JS.lowerUnit b <-> Caseless.same_letter a b = true.
Proof.
  assert (H : forallb (fun a => forallb (fun b =>
                Bool.eqb (Ascii.eqb (JS.lowerUnit a) (JS.lowerUnit b))
                         (Caseless.same_letter a b)) code_units) code_units
              = true) by (vm_compute; reflexivity).
  pose proof (for_all_units _ (for_all_units _ H a) b) as E.
  apply Bool.eqb_prop in E. rewrite <- E. symmetry. apply Ascii.eqb_eq.
Qed.

(** Equal lower-case forms: the same length and, position by position, the
    same letter. *)
Lemma toLowerCase_same (s t : string) :
  JS.toLowerCase s = JS.toLowerCase t <-> Caseless.same s t = true.
Proof.
  revert t. induction s as [|a s IH]; intros [|b t]; simpl;
    try (split; congruence).
  rewrite andb_true_iff, <- IH, <- lowerUnit_same. split.
  - intros [= -> ->]. auto.
  - intros [-> ->]. reflexivity.
Qed.

Lemma occurs_caseless (q s : string) :
  Spec.occurs_ignoring_case q s <-> Caseless.occurs q s.
Proof.
  unfold Spec.occurs_ignoring_case, Caseless.occurs.
  split; intros (pre & mid & post & E & H); exists pre, mid, post;
    (split; [exact E|]); apply toLowerCase_same; exact H.
Qed.

Lemma isWhiteSpace_blank (c : ascii) :
  JS.isWhiteSpace c = true <-> Caseless.blank_unit c.
Proof.
  assert (H : forallb (fun c =>
                Bool.eqb (JS.isWhiteSpace c)
                  (existsb (Nat.eqb (nat_of_ascii c))
                     [9; 10; 11; 12; 13; 32; 160]%nat)) code_units = true)
    by (vm_compute; reflexivity).
  apply for_all_units with (a := c) in H. apply Bool.eqb_prop in H.
  rewrite H, existsb_exists. unfold Caseless.blank_unit. split.
  - intros (k & Hk & E). apply Nat.eqb_eq in E. rewrite E. exact Hk.
  - intros Hk. exists (nat_of_ascii c). split; [exact Hk|apply Nat.eqb_refl].
Qed.

Lemma trimEnd_empty (s : string) :
  JS.trimEnd s = "" <-> Forall (fun c => JS.isWhiteSpace c = true)
                          (list_ascii_of_string s).
Proof.
  induction s as [|c s IH]; simpl.
  - split; [constructor|reflexivity].
  - rewrite Forall_cons_iff, <- IH.
    destruct (JS.trimEnd s), (JS.isWhiteSpace c); split;
      try discriminate; try tauto; intros [? ?]; discriminate.
Qed.

(** A string trims to the empty string exactly when it is white space
    throughout. *)
Lemma trim_blank (s : string) : JS.trim s = "" <-> Caseless.blank s.
Proof.
  unfold Caseless.blank, JS.trim.
  induction s as [|c s IH].
  - split; [constructor|reflexivity].
  - cbn [JS.trimStart list_ascii_of_string]. rewrite Forall_cons_iff, <- IH.
    rewrite <- isWhiteSpace_blank.
    destruct (JS.isWhiteSpace c) eqn:E; cbn iota;
      [split; [auto|intros [_ H]; exact H]|].
    rewrite trimEnd_empty. cbn [list_ascii_of_string].
    rewrite Forall_cons_iff, E. split; intros [? _]; discriminate.
Qed.

(** * [filter] on strings of any code units *)

Lemma filter_is_body (notes : list Note) (f : NoteFilters) :
  storage.filter notes f
  = filter_body (fun s => JS.truthy (JS.trim s)) JS.toLowerCase JS.includes
      content title tags type notes (searchQuery f) (typeFilter f).
Proof. reflexivity. Qed.

Lemma filter_map {A B} (g : A -> B) (p : A -> bool) (p' : B -> bool)
    (l : list A) :
  (forall x, p' (g x) = p x) ->
  List.filter p' (map g l) = map g (List.filter p l).
Proof.
  intros H. induction l as [|x l IH]; [reflexivity|]. simpl.
  rewrite H, IH. destruct (p x); reflexivity.
Qed.

(** The body run on the images of notes and query under an embedding of
    strings that the three operations respect. *)
Lemma filter_body_map {S1 S2 A1 A2 : Type} (phi : S1 -> S2) (psi : A1 -> A2)
    tt1 lo1 in1 c1 t1 g1 (y1 : A1 -> NoteType)
    tt2 lo2 in2 c2 t2 g2 (y2 : A2 -> NoteType) :
  (forall s, tt2 (phi s) = tt1 s) ->
  (forall s, lo2 (phi s) = phi (lo1 s)) ->
  (forall s q, in2 (phi s) (phi q) = in1 s q) ->
  (forall a, c2 (psi a) = phi (c1 a)) ->
  (forall a, t2 (psi a) = phi <$> t1 a) ->
  (forall a, g2 (psi a) = map phi <$> g1 a) ->
  (forall a, y2 (psi a) = y1 a) ->
  forall notes q tf,
    filter_body tt2 lo2 in2 c2 t2 g2 y2 (map psi notes) (phi q) tf
    = map psi (filter_body tt1 lo1 in1 c1 t1 g1 y1 notes q tf).
Proof.
  intros Htt Hlo Hin Hc Ht Hg Hy notes q tf. unfold filter_body.
  rewrite Htt.
  assert (Hs : List.filter (fun note =>
                 in2 (lo2 (c2 note)) (lo2 (phi q))
                 || JS.truthy_opt ((fun t => in2 (lo2 t) (lo2 (phi q))) <$> t2 note)
                 || JS.truthy_opt
                      (existsb (fun tag => in2 (lo2 tag) (lo2 (phi q)))
                         <$> g2 note)) (map psi notes)
               = map psi (List.filter (fun note =>
                   in1 (lo1 (c1 note)) (lo1 q)
                   || JS.truthy_opt ((fun t => in1 (lo1 t) (lo1 q)) <$> t1 note)
                   || JS.truthy_opt
                        (existsb (fun tag => in1 (lo1 tag) (lo1 q))
                           <$> g1 note)) notes)).
  { apply filter_map. intros a. rewrite Hc, Ht, Hg, !Hlo, Hin.
    f_equal; [f_equal|].
    - destruct (t1 a) as [t|]; simpl; [|reflexivity]. rewrite Hlo. apply Hin.
    - destruct (g1 a) as [ts|]; simpl; [|reflexivity].
      induction ts as [|tag ts IH]; [reflexivity|]. simpl.
      rewrite Hlo, Hin, IH. reflexivity. }
  assert (Ht' : forall t l, List.filter (fun note => NoteType_eqb (y2 note) t)
                              (map psi l)
                            = map psi (List.filter
                                (fun note => NoteType_eqb (y1 note) t) l)).
  { intros t l. apply filter_map. intros a. rewrite Hy. reflexivity. }
  destruct (tt1 q), tf as [[t|]|]; cbv zeta;
    rewrite ?Hs, ?Ht'; reflexivity.
Qed.

Lemma N_of_ascii_eqb (a b : ascii) :
  (N_of_ascii a =? N_of_ascii b)%N = Ascii.eqb a b.
Proof.
  destruct (Ascii.eqb a b) eqn:E.
  - apply Ascii.eqb_eq in E as ->. apply N.eqb_refl.
  - apply N.eqb_neq. intros H. apply Ascii.eqb_neq in E. apply E.
    rewrite <- (ascii_N_embedding a), <- (ascii_N_embedding b), H.
    reflexivity.
Qed.

Lemma lowerUnit_widen (a : ascii) :
  Utf16.lowerUnit (N_of_ascii a) = N_of_ascii (JS.lowerUnit a).
Proof.
  assert (H : forallb (fun a =>
                (Utf16.lowerUnit (N_of_ascii a)
                 =? N_of_ascii (JS.lowerUnit a))%N) code_units = true)
    by (vm_compute; reflexivity).
  apply N.eqb_eq, (for_all_units _ H).
Qed.

Lemma isWhiteSpace_widen (a : ascii) :
  Utf16.isWhiteSpace (N_of_ascii a) = JS.isWhiteSpace a.
Proof.
  assert (H : forallb (fun a =>
                Bool.eqb (Utf16.isWhiteSpace (N_of_ascii a))
                         (JS.isWhiteSpace a)) code_units = true)
    by (vm_compute; reflexivity).
  apply Bool.eqb_prop, (for_all_units _ H).
Qed.

Lemma widen_cons (a : ascii) (s : string) :
  widen (String a s) = N_of_ascii a :: widen s.
Proof. reflexivity. Qed.

(** Below U+0100 no code unit is a capital sigma, and lower-casing is the
    mapping of the code units one by one. *)
Lemma lower_from_widen (behind : bool) (s : string) :
  Utf16.lower_from behind (widen s) = widen (JS.toLowerCase s).
Proof.
  revert behind. induction s as [|a s IH]; intros behind; [reflexivity|].
  cbn [JS.toLowerCase]. rewrite !widen_cons. cbn [Utf16.lower_from].
  rewrite IH, lowerUnit_widen.
  assert (E : (N_of_ascii a =? 931)%N = false).
  { apply N.eqb_neq. pose proof (N_ascii_bounded a). lia. }
  rewrite E. reflexivity.
Qed.

Lemma toLowerCase_widen (s : string) :
  Utf16.toLowerCase (widen s) = widen (JS.toLowerCase s).
Proof. apply lower_from_widen. Qed.

Lemma startsWith_widen (s q : string) :
  Utf16.startsWith (widen s) (widen q) = JS.startsWith s q.
Proof.
  revert s. induction q as [|b q IH]; intros [|a s]; try reflexivity.
  rewrite !widen_cons. cbn [Utf16.startsWith JS.startsWith].
  rewrite IH, N_of_ascii_eqb. reflexivity.
Qed.

Lemma includes_widen (s q : string) :
  Utf16.includes (widen s) (widen q) = JS.includes s q.
Proof.
  induction s as [|a s IH].
  - change (Utf16.startsWith (widen "") (widen q) || false
            = JS.startsWith "" q || false).
    rewrite startsWith_widen. reflexivity.
  - change (Utf16.startsWith (widen (String a s)) (widen q)
            || Utf16.includes (widen s) (widen q)
            = JS.startsWith (String a s) q || JS.includes s q).
    rewrite startsWith_widen, IH. reflexivity.
Qed.

Lemma trimStart_widen (s : string) :
  Utf16.trimStart (widen s) = widen (JS.trimStart s).
Proof.
  induction s as [|a s IH]; [reflexivity|].
  rewrite widen_cons. cbn [Utf16.trimStart JS.trimStart].
  rewrite isWhiteSpace_widen, IH. destruct (JS.isWhiteSpace a); reflexivity.
Qed.

Lemma trimEnd_widen (s : string) :
  Utf16.trimEnd (widen s) = widen (JS.trimEnd s).
Proof.
  induction s as [|a s IH]; [reflexivity|].
  rewrite widen_cons. cbn [Utf16.trimEnd JS.trimEnd].
  rewrite isWhiteSpace_widen, IH.
  destruct (JS.trimEnd s), (JS.isWhiteSpace a); reflexivity.
Qed.

Lemma truthy_trim_widen (s : string) :
  Utf16.truthy (Utf16.trim (widen s)) = JS.truthy (JS.trim s).
Proof.
  unfold Utf16.trim, JS.trim. rewrite trimStart_widen, trimEnd_widen.
  destruct (JS.trimEnd (JS.trimStart s)); reflexivity.
Qed.

(** On strings of code units below U+0100 the two models of [filter] are
    one. *)
Lemma filter_widen (notes : list Note) (f : NoteFilters) :
  Utf16.filter (map widen_note notes) (widen_filters f)
  = map widen_note (storage.filter notes f).
Proof.
  rewrite filter_is_body. unfold Utf16.filter. cbn [widen_filters
    Utf16.searchQuery Utf16.typeFilter].
  apply filter_body_map; try reflexivity.
  - apply truthy_trim_widen.
  - apply toLowerCase_widen.
  - apply includes_widen.
Qed.

(** Whatever the string operations, the two passes of the body keep the
    notes that [lowered_selected] describes. *)
Lemma filter_body_selects {Str A : Type} tt lo inc (c : A -> Str) t g y
    (l : list A) (q : Str) (tf : option TypeFilter)
    (dec : forall n, Decision (lowered_selected tt lo inc c t g y q tf n)) :
  filter_body tt lo inc c t g y l q tf
  = base.filter (lowered_selected tt lo inc c t g y q tf) l.
Proof.
  pose (search := fun n : A =>
          inc (lo (c n)) (lo q)
          || JS.truthy_opt ((fun x => inc (lo x) (lo q)) <$> t n)
          || JS.truthy_opt (existsb (fun tag => inc (lo tag) (lo q)) <$> g n)).
  pose (p := fun n : A =>
          (if tt q then search n else true)
          && match tf with
             | Some (only t') => NoteType_eqb (y n) t'
             | Some all | None => true
             end).
  assert (E : filter_body tt lo inc c t g y l q tf = List.filter p l).
  { unfold filter_body, p. fold search.
    destruct (tt q), tf as [[t'|]|]; cbv zeta.
    - apply filter_twice.
    - apply filter_ext. intros n. rewrite andb_true_r. reflexivity.
    - apply filter_ext. intros n. rewrite andb_true_r. reflexivity.
    - reflexivity.
    - symmetry. apply filter_all. reflexivity.
    - symmetry. apply filter_all. reflexivity. }
  rewrite E. apply filter_decides. intros n.
  unfold p, lowered_selected. rewrite andb_true_iff.
  assert (Hs : search n = true <-> lowered_hit lo inc c t g q n).
  { unfold search, lowered_hit. rewrite !orb_true_iff.
    assert (Ht : JS.truthy_opt ((fun x => inc (lo x) (lo q)) <$> t n) = true
                 <-> exists x, t n = Some x /\ inc (lo x) (lo q) = true).
    { destruct (t n) as [x|]; simpl.
      - split; [eauto|]. intros (x' & [= <-] & H). exact H.
      - split; [discriminate|]. intros (x' & [=] & _). }
    assert (Hg : JS.truthy_opt
                   (existsb (fun tag => inc (lo tag) (lo q)) <$> g n) = true
                 <-> exists ts tag, g n = Some ts /\ In tag ts
                                    /\ inc (lo tag) (lo q) = true).
    { destruct (g n) as [ts|]; simpl.
      - rewrite existsb_exists. split.
        + intros (tag & Hin & H). eauto.
        + intros (ts' & tag & [= <-] & Hin & H). eauto.
      - split; [discriminate|]. intros (ts' & tag & [=] & _). }
    rewrite Ht, Hg. tauto. }
  assert (Hy : match tf with
               | Some (only t') => NoteType_eqb (y n) t'
               | _ => true
               end = true
               <-> (forall t', tf = Some (only t') -> y n = t')).
  { destruct tf as [[t'|]|].
    - rewrite NoteType_eqb_eq. split.
      + intros -> t'' [= <-]. reflexivity.
      + intros H. apply H. reflexivity.
    - split; [discriminate|reflexivity].
    - split; [discriminate|reflexivity]. }
  rewrite Hy. destruct (tt q).
  - rewrite Hs. tauto.
  - split; [|intros [_ H]; split; [reflexivity|exact H]].
    intros [_ H]. split; [discriminate|exact H].
Qed.

Lemma filter_body_blank {Str A : Type} tt lo inc (c : A -> Str) t g y
    (l : list A) (q : Str) :
  tt q = false -> filter_body tt lo inc c t g y l q (Some all) = l.
Proof. intros E. unfold filter_body. rewrite E. reflexivity. Qed.

(** C1, as the code has it. For every list of notes and every criteria,
    [filter] returns exactly the sub-sequence of the notes that satisfy both
    conditions: when the query is non-empty after trimming, the lower-case
    form of the content, of the title or of one of the tags includes the
    lower-case form of the query; and when [typeFilter] names a type, that
    very type. That holds whatever the strings and the three operations on
    them are, and a query that is empty after trimming restricts nothing. On
    strings of code units below U+0100 the first condition is the one of the
    specification, a match of the query up to case: a run of the field has,
    position by position, the letter of the query in either case; there a
    query is empty after trimming when it is white space throughout, with
    such a query and [typeFilter] 'all' the result is the input sequence,
    and [filter] on strings of any code units, run on such notes and
    criteria, returns the same notes. (The statement holds for whichever
    procedure decides the condition; an omitted [typeFilter] is the subject
    of C10.) *)
Theorem filter_selects (notes : list Note) (f : NoteFilters)
    (dec : forall n, Decision (Spec.selected f n)) :
  storage.filter notes f = base.filter (Spec.selected f) notes
  /\ (JS.trim (searchQuery f) = "" -> typeFilter f = Some all ->
      storage.filter notes f = notes)
  /\ storage.filter notes {| searchQuery := ""; typeFilter := Some all |}
     = notes
  /\ (forall s q, JS.includes (JS.toLowerCase s) (JS.toLowerCase q) = true
                  <-> Caseless.occurs q s)
  /\ (forall q s, Spec.occurs_ignoring_case q s <-> Caseless.occurs q s)
  /\ (forall q, JS.trim q = "" <-> Caseless.blank q)
  /\ Utf16.filter (map widen_note notes) (widen_filters f)
     = map widen_note (base.filter (Spec.selected f) notes)
  /\ (forall wide : list Utf16.Note,
        Utf16.filter wide {| Utf16.searchQuery := [];
                             Utf16.typeFilter := Some all |} = wide)
  /\ storage.filter notes f
     = filter_body (fun s => JS.truthy (JS.trim s)) JS.toLowerCase JS.includes
         content title tags type notes (searchQuery f) (typeFilter f)
  /\ (forall (Str A : Type) tt lo inc (c : A -> Str) t g y
        (l : list A) (q : Str) (tf : option TypeFilter)
        (dec' : forall n, Decision (lowered_selected tt lo inc c t g y q tf n)),
        filter_body tt lo inc c t g y l q tf
        = base.filter (lowered_selected tt lo inc c t g y q tf) l
        /\ (tt q = false -> filter_body tt lo inc c t g y l q (Some all) = l)).
Proof.
  assert (E : storage.filter notes f = base.filter (Spec.selected f) notes).
  { rewrite filter_keeps. apply filter_decides. apply keeps_selected. }
  split; [exact E|].
  split; [|split; [|split; [|split; [|split; [|split; [|split; [|split]]]]]]].
  - intros Hq Ht. unfold storage.filter. rewrite Hq, Ht. reflexivity.
  - reflexivity.
  - intros s q. rewrite includes_lower. apply occurs_caseless.
  - apply occurs_caseless.
  - apply trim_blank.
  - rewrite <- E. apply filter_widen.
  - reflexivity.
  - reflexivity.
  - intros Str A tt lo inc c t g y l q tf dec'. split.
    + apply filter_body_selects.
    + apply filter_body_blank.
Qed.

(** C1, as the specification has it, fails beyond U+00FF, where the
    lower-case form of a letter depends on its place in the word. The
    content is the Greek word for a street in capitals (omicron, delta,
    omicron, sigma) and the query is its last letter, the capital sigma, as
    it stands in the content. The lower-case form of the content ends in the
    final small sigma (U+03C2), that of the query is the small sigma
    (U+03C3), and [filter] leaves the note out: a note whose content holds
    the query as it is typed is not always kept. *)
Lemma filter_misses_final_sigma :
  let n := {| Utf16.id := [110; 49]%N;
              Utf16.type := note;
              Utf16.content := [927; 916; 927; 931]%N;
              Utf16.createdAt := 1600000000000;
              Utf16.updatedAt := 1600000000000;
              Utf16.tags := None;
              Utf16.completed := None;
              Utf16.title := None |} in
  let f := {| Utf16.searchQuery := [931]%N;
              Utf16.typeFilter := Some all |} in
  Utf16.content n = [927; 916; 927]%N ++ Utf16.searchQuery f
  /\ Utf16.trim (Utf16.searchQuery f) = [931]%N
  /\ Utf16.toLowerCase (Utf16.content n) = [959; 948; 959; 962]%N
  /\ Utf16.toLowerCase (Utf16.searchQuery f) = [963]%N
  /\ Utf16.filter [n] f = []
  /\ ~ (forall (notes : list Utf16.Note) (g : Utf16.NoteFilters)
               (m : Utf16.Note) (pre post : Utf16.str),
          In m notes -> Utf16.typeFilter g = Some all ->
          Utf16.content m = pre ++ Utf16.searchQuery g ++ post ->
          In m (Utf16.filter notes g)).
Proof.
  intros n f. do 5 (split; [reflexivity|]). intros H.
  assert (Hin : In n (Utf16.filter [n] f)).
  { apply (H [n] f n [927; 916; 927]%N []); [left|..]; reflexivity. }
  exact Hin.
Qed.

(** C9. [filter] matches the search query as it was typed: trimming only
    decides whether there is a search at all. For a query that is not blank,
    a note of the input is kept exactly when the untrimmed query matches it;
    so "milk " (with its trailing space), which trims to "milk", does not
    select a note whose content is "Buy milk", where "milk" does. *)
Theorem filter_query_verbatim :
  (forall notes q n, JS.trim q <> "" ->
     In n (storage.filter notes {| searchQuery := q; typeFilter := Some all |})
     <-> In n notes /\ Spec.search_hit q n)
  /\ JS.trim "milk " = "milk"
  /\ storage.filter [Sample.milk]
       {| searchQuery := "milk "; typeFilter := Some all |} = []
  /\ storage.filter [Sample.milk]
       {| searchQuery := "milk"; typeFilter := Some all |} = [Sample.milk].
Proof.
  split; [|repeat split; reflexivity].
  intros notes q n Hq. rewrite filter_keeps, filter_In.
  apply and_iff_compat_l. unfold keeps. simpl.
  apply truthy_not_empty in Hq. rewrite Hq, andb_true_r.
  apply search_test_hit.
Qed.

(** C10. An omitted [typeFilter] restricts nothing: for every list of notes
    and every query, the result is the one for [typeFilter] 'all', and a
    note of the input is in it whatever its type, as soon as the search (if
    there is one) accepts it. *)
Theorem filter_typeFilter_omitted (notes : list Note) (q : string) :
  storage.filter notes {| searchQuery := q; typeFilter := None |}
  = storage.filter notes {| searchQuery := q; typeFilter := Some all |}
  /\ (forall n,
       In n (storage.filter notes {| searchQuery := q; typeFilter := None |})
       <-> In n notes /\ (JS.trim q <> "" -> Spec.search_hit q n)).
Proof.
  split; [reflexivity|]. intros n.
  rewrite filter_keeps, filter_In, keeps_selected. unfold Spec.selected. simpl.
  split.
  - intros (Hn & Hs & _). auto.
  - intros (Hn & Hs). split; [exact Hn|]. split; [exact Hs|discriminate].
Qed.

(** * The store, call by call *)

Section StoreFacts.
Context `{P : Platform}.

Lemma bind_run {A B} (m : IO A) (k : A -> IO B) (w : World) :
  (m ≫= k) w = k (m w).1 (m w).2.
Proof. reflexivity. Qed.

(** [getAll], branch by branch. *)
Lemma getAll_run (w : World) :
  storage.getAll w =
  match localStorage w !! STORAGE_KEY with
  | None => ([], w)
  | Some s =>
      if JS.truthy s then
        match JSON_parse s with
        | Some ns => (ns, w)
        | None => ([], (console_error "Error reading from localStorage:" w).2)
        end
      else ([], w)
  end.
Proof.
  unfold storage.getAll. rewrite bind_run. unfold getItem. simpl.
  destruct (localStorage w !! STORAGE_KEY) as [s|]; [|reflexivity].
  destruct (JS.truthy s); [|reflexivity]. simpl.
  destruct (JSON_parse s); reflexivity.
Qed.

(** Reading changes nothing but the console. *)
Lemma getAll_frame (w : World) :
  localStorage (storage.getAll w).2 = localStorage w
  /\ reads (storage.getAll w).2 = reads w
  /\ draws (storage.getAll w).2 = draws w.
Proof.
  rewrite getAll_run.
  destruct (localStorage w !! STORAGE_KEY) as [s|]; [|auto].
  destruct (JS.truthy s); [|auto]. destruct (JSON_parse s); auto.
Qed.

(** What is read depends on the slot alone. *)
Lemma notes_of_slot (w w' : World) :
  localStorage w !! STORAGE_KEY = localStorage w' !! STORAGE_KEY ->
  notes_of w = notes_of w'.
Proof.
  intros E. unfold notes_of. rewrite !getAll_run, E.
  destruct (localStorage w' !! STORAGE_KEY) as [s|]; [|reflexivity].
  destruct (JS.truthy s); [|reflexivity]. destruct (JSON_parse s); reflexivity.
Qed.

Lemma notes_of_getAll (w : World) : notes_of (storage.getAll w).2 = notes_of w.
Proof. apply notes_of_slot. destruct (getAll_frame w) as [-> _]. reflexivity. Qed.

(** [saveAll], branch by branch. *)
Lemma saveAll_run (ns : list Note) (w : World) :
  (storage.saveAll ns w).2 =
  if storage_rejects (JSON_stringify ns)
  then (console_error "Error saving to localStorage:" w).2
  else {| localStorage := <[STORAGE_KEY := JSON_stringify ns]> (localStorage w);
          reads := reads w; draws := draws w; console := console w |}.
Proof.
  unfold storage.saveAll. rewrite bind_run. unfold setItem.
  destruct (storage_rejects (JSON_stringify ns)); reflexivity.
Qed.

Lemma saveAll_frame (ns : list Note) (w : World) :
  reads (storage.saveAll ns w).2 = reads w
  /\ draws (storage.saveAll ns w).2 = draws w.
Proof.
  rewrite saveAll_run. destruct (storage_rejects (JSON_stringify ns)); auto.
Qed.

Lemma saveAll_rejected (ns : list Note) (w : World) :
  storage_rejects (JSON_stringify ns) = true ->
  localStorage (storage.saveAll ns w).2 = localStorage w.
Proof. intros E. rewrite saveAll_run, E. reflexivity. Qed.

(** A write that is accepted is what the next read returns; one that is
    refused leaves the collection as it was. *)
Lemma notes_of_saveAll {L : PlatformLaws P} (ns : list Note) (w : World) :
  notes_of (storage.saveAll ns w).2 =
  if storage_rejects (JSON_stringify ns) then notes_of w else ns.
Proof.
  rewrite saveAll_run.
  destruct (storage_rejects (JSON_stringify ns)); [apply notes_of_slot; reflexivity|].
  unfold notes_of. rewrite getAll_run. simpl.
  rewrite lookup_insert_eq, stringify_truthy, parse_stringify. reflexivity.
Qed.

(** [create], step by step. *)
Lemma create_run (x : NoteInput) (w : World) :
  let n := materialize x (randomUUID (draws w))
             (Date_now (reads w)) (Date_now (S (reads w))) in
  (storage.create x w).1 = n
  /\ (storage.create x w).2
     = (storage.saveAll (notes_of w ++ [n])
          (now (now (uuid (storage.getAll w).2).2).2).2).2.
Proof.
  unfold storage.create. rewrite !bind_run. simpl.
  destruct (getAll_frame w) as (_ & Hr & Hd).
  unfold uuid, now. simpl. rewrite Hr, Hd. split; reflexivity.
Qed.

Lemma create_frame (x : NoteInput) (w : World) :
  reads (storage.create x w).2 = S (S (reads w))
  /\ draws (storage.create x w).2 = S (draws w).
Proof.
  destruct (create_run x w) as [_ ->].
  destruct (getAll_frame w) as (_ & Hr & Hd).
  match goal with |- context [storage.saveAll ?ns ?w0] =>
    destruct (saveAll_frame ns w0) as [-> ->] end.
  simpl. rewrite Hr, Hd. auto.
Qed.

Lemma create_slot (x : NoteInput) (w : World) :
  let ns := notes_of w ++ [(storage.create x w).1] in
  localStorage (storage.create x w).2 =
  if storage_rejects (JSON_stringify ns) then localStorage w
  else <[STORAGE_KEY := JSON_stringify ns]> (localStorage w).
Proof.
  destruct (create_run x w) as [E ->]. rewrite E. simpl.
  rewrite saveAll_run. destruct (getAll_frame w) as (Hs & _ & _).
  destruct (storage_rejects _); simpl; rewrite Hs; reflexivity.
Qed.

Lemma notes_of_create {L : PlatformLaws P} (x : NoteInput) (w : World) :
  let ns := notes_of w ++ [(storage.create x w).1] in
  notes_of (storage.create x w).2 =
  if storage_rejects (JSON_stringify ns) then notes_of w else ns.
Proof.
  destruct (create_run x w) as [E ->]. rewrite E. simpl.
  rewrite notes_of_saveAll. destruct (storage_rejects _); [|reflexivity].
  apply notes_of_slot. simpl. destruct (getAll_frame w) as [-> _]. reflexivity.
Qed.

Lemma findIndex_None {A} (p : A -> bool) (l : list A) :
  JS.findIndex p l = None <-> forall x, In x l -> p x = false.
Proof.
  induction l as [|y l IH]; simpl.
  - split; [intros _ x []|reflexivity].
  - destruct (p y) eqn:E.
    + split; [discriminate|]. intros H. rewrite (H y) in E; [discriminate|auto].
    + destruct (JS.findIndex p l); simpl.
      * split; [discriminate|]. intros H.
        assert (Some n = None) as [=]. apply IH. auto.
      * split; [|reflexivity]. intros _ x [<-|Hx]; [exact E|].
        apply IH; [reflexivity|exact Hx].
Qed.

(** The index found is the position of the first element that passes the
    test: the element Array.prototype.find returns. *)
Lemma findIndex_Some {A} (p : A -> bool) (l : list A) (i : nat) :
  JS.findIndex p l = Some i ->
  exists x, l !! i = Some x /\ p x = true /\ List.find p l = Some x.
Proof.
  revert i. induction l as [|y l IH]; intros i; simpl; [discriminate|].
  destruct (p y) eqn:E.
  - intros [= <-]. exists y. auto.
  - destruct (JS.findIndex p l) as [j|]; simpl; [|discriminate].
    intros [= <-]. destruct (IH j eq_refl) as (x & Hx & Hp & Hf). eauto.
Qed.

Lemma getById_run (id' : string) (w : World) :
  (storage.getById id' w).1
  = List.find (fun n => String.eqb (id n) id') (notes_of w).
Proof. reflexivity. Qed.

(** [update], branch by branch. *)
Lemma update_run (id' : string) (b : Bundle) (w : World) :
  storage.update id' b w =
  match JS.findIndex (fun n => String.eqb (id n) id') (notes_of w) with
  | None => (None, (storage.getAll w).2)
  | Some i =>
      let ns := alter (fun old => merge old b (Date_now (reads w))) i
                  (notes_of w) in
      (ns !! i, (storage.saveAll ns (now (storage.getAll w).2).2).2)
  end.
Proof.
  unfold storage.update. rewrite bind_run. fold (notes_of w).
  destruct (JS.findIndex _ (notes_of w)) as [i|]; [|reflexivity].
  rewrite !bind_run. unfold now at 1 2 3. simpl.
  destruct (getAll_frame w) as (_ & -> & _). reflexivity.
Qed.

(** [delete], branch by branch. *)
Lemma delete_run (id' : string) (w : World) :
  storage.delete id' w =
  let filtered :=
    List.filter (fun n => negb (String.eqb (id n) id')) (notes_of w) in
  if (length filtered =? length (notes_of w))%nat
  then (false, (storage.getAll w).2)
  else (true, (storage.saveAll filtered (storage.getAll w).2).2).
Proof.
  unfold storage.delete. rewrite bind_run. fold (notes_of w). simpl.
  destruct (_ =? _)%nat; reflexivity.
Qed.

(** What an altered array holds. *)
Lemma In_alter {A} (g : A -> A) (i : nat) (l : list A) (y : A) :
  In y (alter g i l) -> In y l \/ exists x, In x l /\ y = g x.
Proof.
  revert i. induction l as [|x l IH]; intros [|i]; simpl; try tauto.
  - intros [<-|H]; eauto.
  - intros [<-|H]; [auto|]. destruct (IH _ H) as [?|(x' & ? & ?)]; eauto.
Qed.

Lemma map_alter_same {A B} (f : A -> B) (g : A -> A) (i : nat) (l : list A) :
  (forall x, f (g x) = f x) -> map f (alter g i l) = map f l.
Proof.
  intros H. revert i. induction l as [|x l IH]; intros [|i]; simpl;
    try reflexivity.
  - rewrite H. reflexivity.
  - f_equal. apply IH.
Qed.

Lemma alter_lookup {A} (g : A -> A) (i : nat) (l : list A) (x : A) :
  l !! i = Some x -> alter g i l !! i = Some (g x).
Proof.
  revert i. induction l as [|y l IH]; intros [|i]; simpl; try discriminate.
  - intros [= ->]. reflexivity.
  - apply IH.
Qed.

Lemma notes_of_update {L : PlatformLaws P} (id' : string) (b : Bundle)
    (w : World) :
  notes_of (storage.update id' b w).2 =
  match JS.findIndex (fun n => String.eqb (id n) id') (notes_of w) with
  | None => notes_of w
  | Some i =>
      let ns := alter (fun old => merge old b (Date_now (reads w))) i
                  (notes_of w) in
      if storage_rejects (JSON_stringify ns) then notes_of w else ns
  end.
Proof.
  rewrite update_run.
  destruct (JS.findIndex _ (notes_of w)) as [i|]; simpl.
  - rewrite notes_of_saveAll. destruct (storage_rejects _); [|reflexivity].
    apply notes_of_slot. simpl. destruct (getAll_frame w) as [-> _].
    reflexivity.
  - apply notes_of_getAll.
Qed.

Lemma update_frame (id' : string) (b : Bundle) (w : World) :
  reads (storage.update id' b w).2 =
  match JS.findIndex (fun n => String.eqb (id n) id') (notes_of w) with
  | None => reads w
  | Some _ => S (reads w)
  end.
Proof.
  rewrite update_run. destruct (getAll_frame w) as (_ & Hr & _).
  destruct (JS.findIndex _ (notes_of w)) as [i|]; simpl; [|exact Hr].
  match goal with |- context [storage.saveAll ?ns ?w0] =>
    destruct (saveAll_frame ns w0) as [-> _] end.
  simpl. rewrite Hr. reflexivity.
Qed.

Lemma notes_of_delete {L : PlatformLaws P} (id' : string) (w : World) :
  let filtered :=
    List.filter (fun n => negb (String.eqb (id n) id')) (notes_of w) in
  notes_of (storage.delete id' w).2 =
  if (length filtered =? length (notes_of w))%nat then notes_of w
  else if storage_rejects (JSON_stringify filtered) then notes_of w
       else filtered.
Proof.
  rewrite delete_run. simpl. destruct (_ =? _)%nat; simpl.
  - apply notes_of_getAll.
  - rewrite notes_of_saveAll. destruct (storage_rejects _); [|reflexivity].
    apply notes_of_getAll.
Qed.

Lemma delete_frame (id' : string) (w : World) :
  reads (storage.delete id' w).2 = reads w.
Proof.
  rewrite delete_run. destruct (getAll_frame w) as (_ & Hr & _). simpl.
  destruct (_ =? _)%nat; simpl; [exact Hr|].
  match goal with |- context [storage.saveAll ?ns ?w0] =>
    destruct (saveAll_frame ns w0) as [-> _] end.
  exact Hr.
Qed.

Lemma update_draws (id' : string) (b : Bundle) (w : World) :
  draws (storage.update id' b w).2 = draws w.
Proof.
  rewrite update_run. destruct (getAll_frame w) as (_ & _ & Hd).
  destruct (JS.findIndex _ (notes_of w)) as [i|]; simpl; [|exact Hd].
  match goal with |- context [storage.saveAll ?ns ?w0] =>
    destruct (saveAll_frame ns w0) as [_ ->] end.
  exact Hd.
Qed.

Lemma delete_draws (id' : string) (w : World) :
  draws (storage.delete id' w).2 = draws w.
Proof.
  rewrite delete_run. destruct (getAll_frame w) as (_ & _ & Hd). simpl.
  destruct (_ =? _)%nat; simpl; [exact Hd|].
  match goal with |- context [storage.saveAll ?ns ?w0] =>
    destruct (saveAll_frame ns w0) as [_ ->] end.
  exact Hd.
Qed.

(** A generator that does not repeat draws an id that no stored note has,
    when the stored ids were all drawn from it. *)
Lemma fresh_draw (w : World) :
  distinct_uuids P -> ids_drawn w ->
  ~ In (randomUUID (draws w)) (map id (notes_of w)).
Proof.
  intros Hinj [_ Hd] Hin. apply in_map_iff in Hin as (m & Hm & Hin).
  destruct (Hd m Hin) as (k & Hk & Ek). rewrite Ek in Hm.
  apply Hinj in Hm. lia.
Qed.

End StoreFacts.

(** * The in-memory browser is a browser *)

Lemma unbits_bits (p : positive) : Fake.unbits (Fake.bits p) = Some p.
Proof. induction p as [p IH|p IH|]; simpl; rewrite ?IH; reflexivity. Qed.

Lemma fake_laws (readonly : bool) : PlatformLaws (Fake.browser readonly).
Proof.
  split; intros ns; simpl; [|reflexivity].
  rewrite unbits_bits. simpl. apply decode_encode.
Qed.

Lemma fake_clock (readonly : bool) : monotone_clock (Fake.browser readonly).
Proof. intros i j H. simpl. lia. Qed.

Lemma rw_laws : PlatformLaws Fake.rw.
Proof. exact (fake_laws false). Qed.

Lemma ro_laws : PlatformLaws Fake.ro.
Proof. exact (fake_laws true). Qed.

Lemma rw_clock : monotone_clock Fake.rw.
Proof. exact (fake_clock false). Qed.

Lemma bits_inj (p q : positive) : Fake.bits p = Fake.bits q -> p = q.
Proof.
  intros E. apply (f_equal Fake.unbits) in E.
  rewrite !unbits_bits in E. congruence.
Qed.

Lemma rw_uuids : distinct_uuids Fake.rw.
Proof.
  intros i j E. simpl in E. injection E as E.
  apply bits_inj in E. apply SuccNat2Pos.inj. exact E.
Qed.

(** The examples below run in the browser that takes every write, unless
    they name the other one. *)
#[local] Existing Instance Fake.rw.

(** * Reading *)

(** C7. [getAll] always returns a value, and it is the empty sequence both
    when nothing is stored under the key (or the empty string is) and when
    the stored text does not parse; in the latter case the failure goes to
    the console and the stored text is left as it is. *)
Theorem getAll_degrades `{P : Platform} (w : World) :
  (localStorage w !! STORAGE_KEY = None -> storage.getAll w = ([], w))
  /\ (localStorage w !! STORAGE_KEY = Some "" -> storage.getAll w = ([], w))
  /\ (forall s, localStorage w !! STORAGE_KEY = Some s -> s <> "" ->
        JSON_parse s = None ->
        (storage.getAll w).1 = []
        /\ localStorage (storage.getAll w).2 = localStorage w
        /\ console (storage.getAll w).2
           = "Error reading from localStorage:" :: console w).
Proof.
  rewrite getAll_run. split; [|split].
  - intros ->. reflexivity.
  - intros ->. reflexivity.
  - intros s -> Hs Hp. apply truthy_not_empty in Hs. rewrite Hs, Hp.
    repeat split.
Qed.

(** * Updating *)

(** C4. For an id that no stored note has, [update] returns null and does
    nothing more than the read it starts with: nothing is written, and
    [getAll] returns after the call what it returned before. *)
Theorem update_missing_id `{P : Platform} (w : World) (id' : string)
    (b : Bundle) :
  (forall n, In n (notes_of w) -> id n <> id') ->
  (storage.update id' b w).1 = None
  /\ (storage.update id' b w).2 = (storage.getAll w).2
  /\ localStorage (storage.update id' b w).2 = localStorage w
  /\ (storage.getAll (storage.update id' b w).2).1 = (storage.getAll w).1.
Proof.
  intros Hmiss.
  assert (E : JS.findIndex (fun n => String.eqb (id n) id') (notes_of w) = None).
  { apply findIndex_None. intros n Hn. apply String.eqb_neq. auto. }
  rewrite update_run, E. simpl. repeat split.
  - apply getAll_frame.
  - apply notes_of_getAll.
Qed.

(** In the in-memory browser: an update of "n7" over a store of "n1" and "n2". *)
Lemma update_missing_id_witness :
  let w := Fake.holding [Sample.milk; Sample.cleanup] in
  notes_of w = [Sample.milk; Sample.cleanup]
  /\ (storage.update "n7" (typed Sample.tick) w).1 = None
  /\ (storage.getAll (storage.update "n7" (typed Sample.tick) w).2).1
     = [Sample.milk; Sample.cleanup].
Proof.
  intros w.
  assert (E : notes_of w = [Sample.milk; Sample.cleanup])
    by (vm_compute; reflexivity).
  split; [exact E|].
  destruct (update_missing_id w "n7" (typed Sample.tick)) as (H1 & _ & _ & H4).
  - rewrite E. intros n [<-|[<-|[]]]; discriminate.
  - split; [exact H1|]. rewrite H4. exact E.
Defined.

(** A bundle of the declared type leaves the two system-managed columns of
    the note it is merged into. *)
Lemma identity_of_merge (x : Note) (u : NoteUpdates) (t : Z) :
  identity_of (merge x (typed u) t) = identity_of x.
Proof. reflexivity. Qed.

Lemma identity_of_step `{P : Platform} {L : PlatformLaws P} (id' : string)
    (u : NoteUpdates) (w : World) :
  map identity_of (notes_of (step (op_update id' u) w))
  = map identity_of (notes_of w).
Proof.
  simpl. rewrite notes_of_update.
  destruct (JS.findIndex _ (notes_of w)) as [i|]; [|reflexivity]. simpl.
  destruct (storage_rejects _); [reflexivity|].
  apply map_alter_same. intros x. apply identity_of_merge.
Qed.

(** C2, as the code has it. For every stored note and every bundle of the
    declared type (which has no [id] and no [createdAt] key), the note that
    [update] returns has the id and the createdAt of the stored note it
    replaces; and no sequence of such calls, on whatever ids, changes the id
    or the createdAt of any note of the collection. For every bundle
    whatever, the note returned has the id of the bundle when the bundle has
    an [id] key and the id of the stored note otherwise, and likewise for
    createdAt. *)
Theorem update_keeps_identity `{P : Platform} {L : PlatformLaws P} (w : World) :
  (forall id' u n',
     (storage.update id' (typed u) w).1 = Some n' ->
     exists old, (storage.getById id' w).1 = Some old
                 /\ id n' = id old /\ createdAt n' = createdAt old)
  /\ (forall calls : list (string * NoteUpdates),
        map identity_of
          (notes_of (run (map (fun c => op_update c.1 c.2) calls) w))
        = map identity_of (notes_of w))
  /\ (forall id' (b : Bundle) n',
        (storage.update id' b w).1 = Some n' ->
        exists old, (storage.getById id' w).1 = Some old
                    /\ id n' = default (id old) (extra_id b)
                    /\ createdAt n' = default (createdAt old) (extra_createdAt b)).
Proof.
  assert (Hany : forall id' (b : Bundle) n',
            (storage.update id' b w).1 = Some n' ->
            exists old, (storage.getById id' w).1 = Some old
                        /\ n' = merge old b (Date_now (reads w))).
  { intros id' b n'. rewrite update_run, getById_run.
    destruct (JS.findIndex _ (notes_of w)) as [i|] eqn:E; [|discriminate].
    apply findIndex_Some in E as (x & Hx & _ & Hf). cbv zeta. cbn [fst snd].
    rewrite (alter_lookup _ _ _ _ Hx). intros [= <-].
    exists x. rewrite Hf. auto. }
  split; [|split].
  - intros id' u n' E. destruct (Hany _ _ _ E) as (old & Hold & ->).
    exists old. auto.
  - intros calls. revert Hany. generalize w. clear w. intros w _. revert w.
    induction calls as [|[id' u] calls IH]; intros w; [reflexivity|].
    change (map identity_of
              (notes_of (run (map (fun c => op_update c.1 c.2) calls)
                           (step (op_update id' u) w)))
            = map identity_of (notes_of w)).
    rewrite IH. apply identity_of_step.
  - intros id' b n' E. destruct (Hany _ _ _ E) as (old & Hold & ->).
    exists old. auto.
Qed.

(** In the in-memory browser: ticking a todo, and three updates in a row. *)
Lemma update_keeps_identity_witness :
  let w := Fake.holding [Sample.milk; Sample.cleanup] in
  (exists n', (storage.update "n1" (typed Sample.tick) w).1 = Some n'
              /\ completed n' = Some true
              /\ id n' = "n1" /\ createdAt n' = createdAt Sample.milk)
  /\ map identity_of
       (notes_of (run [op_update "n1" Sample.tick; op_update "n2" Sample.tick;
                       op_update "n1" Sample.no_change] w))
     = [identity_of Sample.milk; identity_of Sample.cleanup].
Proof.
  intros w.
  pose proof (update_keeps_identity (L := rw_laws) w) as (H1 & H2 & _).
  split.
  - assert (E : (storage.update "n1" (typed Sample.tick) w).1
                = Some (merge Sample.milk (typed Sample.tick) 1700000000000))
      by (vm_compute; reflexivity).
    destruct (H1 _ _ _ E) as (old & Hold & Hid & Hc).
    assert (old = Sample.milk) as ->.
    { assert (Eg : (storage.getById "n1" w).1 = Some Sample.milk)
        by (vm_compute; reflexivity).
      congruence. }
    eexists. split; [exact E|]. split; [reflexivity|]. split; assumption.
  - exact (H2 [("n1", Sample.tick); ("n2", Sample.tick);
               ("n1", Sample.no_change)]).
Defined.

(** C2, as the specification has it, fails: a bundle that does carry an [id]
    and a [createdAt] has them copied over the stored ones by the spread. *)
Lemma update_overwrites_supplied_id :
  ~ (forall (P : Platform), PlatformLaws P ->
     forall (w : World) (id' : string) (b : Bundle) (old n' : Note),
       (storage.getById id' w).1 = Some old ->
       (storage.update id' b w).1 = Some n' ->
       id n' = id old /\ createdAt n' = createdAt old).
Proof.
  intros H.
  pose (b := {| fields := Sample.no_change;
                extra_id := Some "n9"; extra_createdAt := Some 0 |}).
  destruct (H Fake.rw rw_laws (Fake.holding [Sample.milk]) "n1" b
              Sample.milk (merge Sample.milk b 1700000000000)) as [Hid _].
  - vm_compute. reflexivity.
  - vm_compute. reflexivity.
  - discriminate Hid.
Qed.

(** * Creating *)

Lemma find_app_fresh (l : list Note) (n : Note) :
  ~ In (id n) (map id l) ->
  List.find (fun m => String.eqb (id m) (id n)) (l ++ [n]) = Some n.
Proof.
  induction l as [|y l IH]; simpl; intros H.
  - rewrite String.eqb_refl. reflexivity.
  - destruct (String.eqb (id y) (id n)) eqn:E.
    + apply String.eqb_eq in E. tauto.
    + apply IH. tauto.
Qed.

Lemma NoDup_snoc {A} (l : list A) (a : A) :
  List.NoDup l -> ~ In a l -> List.NoDup (l ++ [a]).
Proof.
  intros Hl Ha. induction Hl as [|y l Hy Hl IH]; simpl.
  - constructor; [tauto|constructor].
  - constructor.
    + rewrite in_app_iff. simpl. intros [?|[->|[]]]; [tauto|].
      apply Ha. left. reflexivity.
    + apply IH. intros ?. apply Ha. right. assumption.
Qed.

(** C3, as the code has it. [create] generates a fresh unique id: the next
    value of crypto.randomUUID(), which no note of the collection has and
    which leaves the ids of the collection distinct, the generator never
    repeating and the stored ids being of its making. It takes the two time
    stamps from two successive reads of the clock, createdAt first: they are
    in order under a monotone clock, and equal when the clock did not advance
    between the reads. The note returned has that id, those stamps, and the
    type, content, tags, completed and title of the input. It is appended to
    the end of the collection read from the store, and the full collection
    goes to [saveAll]. When the write is accepted the slot holds the
    extended collection, which is what [getAll] then reads; when it is
    refused the slot is as before and the failure is on the console. *)
Theorem create_materializes `{P : Platform} {L : PlatformLaws P}
    (x : NoteInput) (w : World) :
  let n := (storage.create x w).1 in
  let w' := (storage.create x w).2 in
  let full := notes_of w ++ [n] in
  n = {| id := randomUUID (draws w);
         type := in_type x;
         content := in_content x;
         createdAt := Date_now (reads w);
         updatedAt := Date_now (S (reads w));
         tags := in_tags x;
         completed := in_completed x;
         title := in_title x |}
  /\ draws w' = S (draws w) /\ reads w' = S (S (reads w))
  /\ (monotone_clock P -> createdAt n <= updatedAt n)
  /\ (Date_now (S (reads w)) = Date_now (reads w) -> createdAt n = updatedAt n)
  /\ (distinct_uuids P -> ids_drawn w ->
      ~ In (id n) (map id (notes_of w)) /\ List.NoDup (map id full))
  /\ (storage_rejects (JSON_stringify full) = false ->
      localStorage w' = <[STORAGE_KEY := JSON_stringify full]> (localStorage w)
      /\ notes_of w' = full)
  /\ (storage_rejects (JSON_stringify full) = true ->
      localStorage w' = localStorage w
      /\ notes_of w' = notes_of w
      /\ console w'
         = "Error saving to localStorage:" :: console (storage.getAll w).2).
Proof.
  cbv zeta.
  destruct (create_run x w) as [En Ew].
  destruct (create_frame x w) as [Hr Hd].
  pose proof (create_slot x w) as Hs. pose proof (notes_of_create x w) as Hn.
  cbv zeta in Hs, Hn.
  split; [exact En|]. split; [exact Hd|]. split; [exact Hr|].
  split; [|split; [|split; [|split]]].
  - intros mono. rewrite En. simpl. apply mono. lia.
  - intros E. rewrite En. simpl. symmetry. exact E.
  - intros Hinj Hids.
    assert (Hfresh : ~ In (id (storage.create x w).1) (map id (notes_of w))).
    { rewrite En. simpl. apply fresh_draw; assumption. }
    split; [exact Hfresh|].
    rewrite map_app. simpl. apply NoDup_snoc; [apply Hids|exact Hfresh].
  - intros Hok. rewrite Hs, Hn, Hok. split; reflexivity.
  - intros Hno. rewrite Hs, Hn, Hno. split; [reflexivity|].
    split; [reflexivity|].
    rewrite Ew, saveAll_run. rewrite <- En. rewrite Hno. reflexivity.
Qed.

(** In the in-memory browser: the second note created from an empty store. *)
Lemma create_materializes_witness :
  let w := (storage.create Sample.draft fresh_world).2 in
  let n := (storage.create Sample.draft w).1 in
  let w' := (storage.create Sample.draft w).2 in
  map id (notes_of w) = ["u"]
  /\ id n = "u0" /\ content n = "Call the plumber"
  /\ createdAt n = 1700000000002 /\ updatedAt n = 1700000000003
  /\ ~ In (id n) (map id (notes_of w))
  /\ List.NoDup (map id (notes_of w'))
  /\ notes_of w' = notes_of w ++ [n].
Proof.
  intros w.
  assert (Ew : notes_of w
               = [materialize Sample.draft "u" 1700000000000 1700000000001])
    by (vm_compute; reflexivity).
  assert (Ed : draws w = 1%nat) by reflexivity.
  assert (Er : reads w = 2%nat) by reflexivity.
  clearbody w. cbv zeta.
  destruct (create_materializes (L := rw_laws) Sample.draft w)
    as (En & _ & _ & _ & _ & Hfresh & Hok & _).
  destruct (Hok eq_refl) as [_ Hn].
  destruct (Hfresh rw_uuids) as [Hf Hu].
  { split.
    - rewrite Ew. repeat constructor. simpl. tauto.
    - rewrite Ew, Ed. intros m [<-|[]]. exists 0%nat. split; [lia|reflexivity]. }
  rewrite Hn. split; [rewrite Ew; reflexivity|].
  split; [rewrite En, Ed; reflexivity|].
  split; [rewrite En; reflexivity|].
  split; [rewrite En, Er; reflexivity|].
  split; [rewrite En, Er; reflexivity|].
  split; [exact Hf|]. split; [exact Hu|reflexivity].
Defined.

(** C3, as the specification has it, fails twice: the two time stamps are
    two reads of the clock, which differ once the clock has advanced between
    them; and a write that the storage refuses is caught, so the note that is
    returned is not in the collection. *)
Lemma create_two_reads_and_lost_write :
  ~ (forall (P : Platform), PlatformLaws P -> monotone_clock P ->
     forall x w, createdAt (storage.create x w).1
                 = updatedAt (storage.create x w).1)
  /\ ~ (forall (P : Platform), PlatformLaws P ->
        forall x w, notes_of (storage.create x w).2
                    = notes_of w ++ [(storage.create x w).1]).
Proof.
  split; intros H.
  - specialize (H Fake.rw rw_laws rw_clock Sample.draft fresh_world).
    vm_compute in H. discriminate H.
  - specialize (H Fake.ro ro_laws Sample.draft fresh_world).
    vm_compute in H. discriminate H.
Qed.

(** C6, as the code has it. When the UUID drawn is not the id of a stored
    note and the storage accepts the write, [getById] on the id of the note
    that [create] returned finds that very note. *)
Theorem create_then_getById `{P : Platform} {L : PlatformLaws P}
    (x : NoteInput) (w : World) :
  let n := (storage.create x w).1 in
  let w' := (storage.create x w).2 in
  ~ In (id n) (map id (notes_of w)) ->
  storage_rejects (JSON_stringify (notes_of w ++ [n])) = false ->
  (storage.getById (id n) w').1 = Some n.
Proof.
  cbv zeta. intros Hfresh Hok. rewrite getById_run.
  pose proof (notes_of_create x w) as Hn. cbv zeta in Hn.
  rewrite Hn, Hok. apply find_app_fresh. exact Hfresh.
Qed.

(** In the in-memory browser: the note just created is found by its id. *)
Lemma create_then_getById_witness :
  let w := Fake.holding [Sample.milk; Sample.cleanup] in
  let n := (storage.create Sample.draft w).1 in
  (storage.getById "u" (storage.create Sample.draft w).2).1 = Some n
  /\ id n = "u".
Proof.
  intros w n.
  assert (Ei : id n = "u") by reflexivity.
  split; [|exact Ei]. rewrite <- Ei.
  apply (create_then_getById (L := rw_laws) Sample.draft w).
  - vm_compute. intros [H|[H|[]]]; discriminate H.
  - reflexivity.
Defined.

(** C6, as the specification has it, fails where the storage refuses the
    write: the note is returned and never stored. *)
Lemma create_then_getById_lost_write :
  ~ (forall (P : Platform), PlatformLaws P ->
     forall x w,
       ~ In (id (storage.create x w).1) (map id (notes_of w)) ->
       (storage.getById (id (storage.create x w).1) (storage.create x w).2).1
       = Some (storage.create x w).1).
Proof.
  intros H.
  specialize (H Fake.ro ro_laws Sample.draft fresh_world).
  vm_compute in H. specialize (H (fun f => f)). discriminate H.
Qed.

(** * Deleting *)

Lemma filter_out_absent (l : list Note) (id' : string) :
  ~ In id' (map id l) ->
  List.filter (fun n => negb (String.eqb (id n) id')) l = l.
Proof.
  intros H. apply filter_all. intros n Hn.
  destruct (String.eqb (id n) id') eqn:E; [|reflexivity].
  apply String.eqb_eq in E. exfalso. apply H. rewrite <- E.
  apply in_map. exact Hn.
Qed.

(** Among unique ids, filtering an id out takes out one note and leaves the
    others as they are, where they are. *)
Lemma filter_out_unique (l : list Note) (id' : string) :
  List.NoDup (map id l) -> In id' (map id l) ->
  exists l1 x l2,
    l = l1 ++ x :: l2 /\ id x = id'
    /\ List.filter (fun n => negb (String.eqb (id n) id')) l = l1 ++ l2.
Proof.
  induction l as [|y l IH]; simpl; intros Hu Hin; [contradiction|].
  inversion Hu as [|? ? Hy Hl]; subst.
  destruct (String.eqb (id y) id') eqn:E; simpl.
  - apply String.eqb_eq in E. exists [], y, l. repeat split; [exact E|].
    apply filter_out_absent. rewrite <- E. exact Hy.
  - apply String.eqb_neq in E. destruct Hin as [Hin|Hin]; [contradiction|].
    destruct (IH Hl Hin) as (l1 & x & l2 & -> & Hx & Hf).
    exists (y :: l1), x, l2. rewrite Hf. auto.
Qed.

(** C5, as the code has it. In a collection whose ids are unique, [delete]
    on an id that is present returns true and hands [saveAll] the collection
    without the one note of that id, every other note unchanged and in
    place: when the write is accepted that is the collection stored, and when
    it is refused the stored collection is as before and the failure is on
    the console. On an id that is not present [delete] returns false and
    does nothing more than its read. *)
Theorem delete_removes_one `{P : Platform} {L : PlatformLaws P}
    (id' : string) (w : World) :
  List.NoDup (map id (notes_of w)) ->
  (In id' (map id (notes_of w)) ->
     (storage.delete id' w).1 = true
     /\ exists l1 x l2,
          notes_of w = l1 ++ x :: l2 /\ id x = id'
          /\ ~ In id' (map id (l1 ++ l2))
          /\ (storage_rejects (JSON_stringify (l1 ++ l2)) = false ->
              localStorage (storage.delete id' w).2
              = <[STORAGE_KEY := JSON_stringify (l1 ++ l2)]> (localStorage w)
              /\ notes_of (storage.delete id' w).2 = l1 ++ l2)
          /\ (storage_rejects (JSON_stringify (l1 ++ l2)) = true ->
              localStorage (storage.delete id' w).2 = localStorage w
              /\ notes_of (storage.delete id' w).2 = notes_of w
              /\ console (storage.delete id' w).2
                 = "Error saving to localStorage:"
                   :: console (storage.getAll w).2))
  /\ (~ In id' (map id (notes_of w)) ->
      (storage.delete id' w).1 = false
      /\ (storage.delete id' w).2 = (storage.getAll w).2
      /\ localStorage (storage.delete id' w).2 = localStorage w
      /\ notes_of (storage.delete id' w).2 = notes_of w).
Proof.
  intros Hu. pose proof (notes_of_delete id' w) as Hn. cbv zeta in Hn.
  split.
  - intros Hin.
    destruct (filter_out_unique _ _ Hu Hin) as (l1 & x & l2 & El & Hx & Hf).
    assert (Hlen : (length (l1 ++ l2) =? length (notes_of w))%nat = false).
    { apply Nat.eqb_neq. rewrite El, !length_app. simpl. lia. }
    rewrite delete_run in *. cbv zeta in *. rewrite Hf, Hlen in *.
    cbn [fst snd] in *.
    split; [reflexivity|]. exists l1, x, l2.
    split; [exact El|]. split; [exact Hx|]. split; [|split].
    + rewrite El, map_app in Hu. simpl in Hu.
      apply NoDup_remove_2 in Hu. rewrite map_app, Hx in *. exact Hu.
    + intros Hok. rewrite Hn, Hok. split; [|reflexivity].
      rewrite saveAll_run, Hok. simpl.
      destruct (getAll_frame w) as [-> _]. reflexivity.
    + intros Hno. rewrite Hn, Hno. split; [|split; [reflexivity|]].
      * rewrite saveAll_rejected by exact Hno. apply getAll_frame.
      * rewrite saveAll_run, Hno. reflexivity.
  - intros Hout. pose proof (filter_out_absent _ _ Hout) as Hf.
    rewrite delete_run in *. cbv zeta in *.
    rewrite Hf, Nat.eqb_refl in *. cbn [fst snd] in *.
    split; [reflexivity|]. split; [reflexivity|].
    split; [apply getAll_frame|apply notes_of_getAll].
Qed.

(** In the in-memory browser: deleting "n1", and deleting the absent "n7". *)
Lemma delete_removes_one_witness :
  let w := Fake.holding [Sample.milk; Sample.cleanup] in
  (storage.delete "n1" w).1 = true
  /\ notes_of (storage.delete "n1" w).2 = [Sample.cleanup]
  /\ (storage.delete "n7" w).1 = false
  /\ notes_of (storage.delete "n7" w).2 = [Sample.milk; Sample.cleanup].
Proof.
  intros w.
  assert (Ew : notes_of w = [Sample.milk; Sample.cleanup])
    by (vm_compute; reflexivity).
  clearbody w.
  assert (Hu : List.NoDup (map id (notes_of w))).
  { rewrite Ew. simpl. repeat constructor; simpl; intuition discriminate. }
  pose proof (delete_removes_one (L := rw_laws) "n1" w Hu) as [Hin _].
  pose proof (delete_removes_one (L := rw_laws) "n7" w Hu) as [_ Hout].
  destruct Hin as (Ht & l1 & x & l2 & El & Hx & _ & Hok & _).
  { rewrite Ew. simpl. auto. }
  destruct Hout as (Hf & _ & _ & Hsame).
  { rewrite Ew. simpl. intuition discriminate. }
  destruct (Hok eq_refl) as [_ Hn].
  split; [exact Ht|]. split; [|split; [exact Hf|rewrite Hsame; exact Ew]].
  rewrite Hn. rewrite Ew in El.
  destruct l1 as [|y l1]; simpl in El.
  - injection El as <- <-. reflexivity.
  - injection El as <- El. destruct l1 as [|z l1]; simpl in El.
    + injection El as <- <-. discriminate Hx.
    + injection El as _ El. destruct l1; discriminate El.
Defined.

(** C5, as the specification has it, fails where the storage refuses the
    write: [delete] returns true and the note is still stored. *)
Lemma delete_lost_write :
  ~ (forall (P : Platform), PlatformLaws P ->
     forall id' w,
       List.NoDup (map id (notes_of w)) -> In id' (map id (notes_of w)) ->
       (storage.delete id' w).1 = true
       /\ ~ In id' (map id (notes_of (storage.delete id' w).2))).
Proof.
  intros H.
  destruct (H Fake.ro ro_laws "n1" (Fake.holding [Sample.milk])) as [_ Hgone].
  - vm_compute. repeat constructor. intros [].
  - vm_compute. auto.
  - apply Hgone. vm_compute. auto.
Qed.

(** * Ids

    The invariant of the data model: ids are unique across the collection,
    in every collection that create, update and delete build from an empty
    store, as long as the generator does not repeat. *)

Section Ids.
Context `{P : Platform} {L : PlatformLaws P}.
Hypothesis uuids : distinct_uuids P.

Lemma NoDup_ids_filter (p : Note -> bool) (l : list Note) :
  List.NoDup (map id l) -> List.NoDup (map id (List.filter p l)).
Proof.
  induction l as [|y l IH]; simpl; intros H; [constructor|].
  inversion H as [|? ? Hy Hl]; subst.
  destruct (p y); simpl; [constructor|]; auto.
  intros Hin. apply Hy. apply in_map_iff in Hin as (m & Em & Hm).
  apply filter_In in Hm as [Hm _]. rewrite <- Em. apply in_map. exact Hm.
Qed.

Lemma ids_drawn_create (x : NoteInput) (w : World) :
  ids_drawn w -> ids_drawn (storage.create x w).2.
Proof.
  intros Hw. pose proof (fresh_draw w uuids Hw) as Hfresh.
  destruct Hw as [Hu Hd]. unfold ids_drawn.
  pose proof (notes_of_create x w) as Hn. cbv zeta in Hn.
  destruct (create_frame x w) as [_ ->]. rewrite Hn. clear Hn.
  destruct (create_run x w) as [-> _].
  assert (Hold : forall m, In m (notes_of w) ->
            exists k, (k < S (draws w))%nat /\ id m = randomUUID k).
  { intros m Hm. destruct (Hd m Hm) as (k & Hk & Ek).
    exists k. split; [lia|exact Ek]. }
  destruct (storage_rejects _); [split; assumption|]. split.
  - rewrite map_app. simpl. apply NoDup_snoc; assumption.
  - intros m. rewrite in_app_iff. intros [Hm|[<-|[]]]; [apply Hold; exact Hm|].
    exists (draws w). split; [lia|reflexivity].
Qed.

Lemma ids_drawn_update (id' : string) (u : NoteUpdates) (w : World) :
  ids_drawn w -> ids_drawn (storage.update id' (typed u) w).2.
Proof.
  intros [Hu Hd]. unfold ids_drawn. rewrite notes_of_update, update_draws.
  destruct (JS.findIndex _ (notes_of w)) as [i|]; [|split; assumption].
  cbv zeta. destruct (storage_rejects _); [split; assumption|]. split.
  - rewrite (map_alter_same id); [exact Hu|reflexivity].
  - intros m Hm. apply In_alter in Hm as [Hm|(m0 & Hm & ->)]; [auto|].
    apply (Hd m0 Hm).
Qed.

Lemma ids_drawn_delete (id' : string) (w : World) :
  ids_drawn w -> ids_drawn (storage.delete id' w).2.
Proof.
  intros [Hu Hd]. unfold ids_drawn.
  pose proof (notes_of_delete id' w) as Hn. cbv zeta in Hn.
  rewrite Hn, delete_draws.
  destruct (_ =? _)%nat; [split; assumption|].
  destruct (storage_rejects _); [split; assumption|]. split.
  - apply NoDup_ids_filter. exact Hu.
  - intros m Hm. apply filter_In in Hm as [Hm _]. auto.
Qed.

Lemma ids_drawn_run (ops : list Op) (w : World) :
  ids_drawn w -> ids_drawn (run ops w).
Proof.
  revert w. induction ops as [|o ops IH]; intros w Hw; [exact Hw|].
  apply (IH (step o w)). destruct o; simpl;
    [apply ids_drawn_create|apply ids_drawn_update|apply ids_drawn_delete];
    exact Hw.
Qed.

(** From an empty store on, ids are unique. *)
Lemma unique_ids (ops : list Op) (w : World) :
  localStorage w !! STORAGE_KEY = None ->
  List.NoDup (map id (notes_of (run ops w))).
Proof.
  intros E. apply ids_drawn_run. unfold ids_drawn, notes_of.
  rewrite getAll_run, E. simpl. split; [constructor|intros n []].
Qed.

End Ids.

(** * Time stamps *)

Section Settled.
Context `{P : Platform} {L : PlatformLaws P}.
Hypothesis mono : monotone_clock P.

Lemma settled_create (x : NoteInput) (w : World) :
  settled w -> settled (storage.create x w).2.
Proof.
  intros Hw n. pose proof (notes_of_create x w) as Hn. cbv zeta in Hn.
  destruct (create_frame x w) as [-> _]. rewrite Hn.
  assert (Hold : forall m, In m (notes_of w) ->
            createdAt m <= updatedAt m
            /\ createdAt m <= Date_now (S (S (reads w)))).
  { intros m Hm. destruct (Hw m Hm) as [H1 H2]. split; [exact H1|].
    etransitivity; [exact H2|]. apply mono. lia. }
  destruct (storage_rejects _); [apply Hold|].
  rewrite in_app_iff. intros [Hm|[<-|[]]]; [apply Hold; exact Hm|].
  destruct (create_run x w) as [-> _]. simpl. split; apply mono; lia.
Qed.

Lemma settled_update (id' : string) (u : NoteUpdates) (w : World) :
  settled w -> settled (storage.update id' (typed u) w).2.
Proof.
  intros Hw n. rewrite notes_of_update, update_frame.
  destruct (JS.findIndex _ (notes_of w)) as [i|]; [|apply Hw].
  assert (Hold : forall m, In m (notes_of w) ->
            createdAt m <= updatedAt m
            /\ createdAt m <= Date_now (S (reads w))).
  { intros m Hm. destruct (Hw m Hm) as [H1 H2]. split; [exact H1|].
    etransitivity; [exact H2|]. apply mono. lia. }
  cbv zeta. destruct (storage_rejects _); [apply Hold|].
  intros Hn. apply In_alter in Hn as [Hn|(m & Hm & ->)]; [apply Hold; exact Hn|].
  destruct (Hw m Hm) as [_ H2]. simpl. split; [exact H2|].
  etransitivity; [exact H2|]. apply mono. lia.
Qed.

Lemma settled_delete (id' : string) (w : World) :
  settled w -> settled (storage.delete id' w).2.
Proof.
  intros Hw n. pose proof (notes_of_delete id' w) as Hn. cbv zeta in Hn.
  rewrite Hn, delete_frame.
  destruct (_ =? _)%nat; [apply Hw|].
  destruct (storage_rejects _); [apply Hw|].
  intros Hin. apply filter_In in Hin as [Hin _]. apply Hw. exact Hin.
Qed.

Lemma settled_step (o : Op) (w : World) : settled w -> settled (step o w).
Proof.
  destruct o; simpl;
    [apply settled_create|apply settled_update|apply settled_delete].
Qed.

Lemma settled_run (ops : list Op) (w : World) :
  settled w -> settled (run ops w).
Proof.
  revert w. induction ops as [|o ops IH]; intros w Hw; [exact Hw|].
  apply (IH (step o w)). apply settled_step. exact Hw.
Qed.

End Settled.

(** An empty slot is a collection without notes. *)
Lemma settled_empty `{P : Platform} (w : World) :
  localStorage w !! STORAGE_KEY = None -> settled w.
Proof.
  intros E n. unfold notes_of. rewrite getAll_run, E. intros [].
Qed.

(** C8, as the code has it. Under a clock that never runs backwards,
    createdAt <= updatedAt for every note of the collection at all times: the
    note that [create] returns has it; a collection that has it, none of
    whose notes was created after the next read of the clock ([settled]),
    still has it after any sequence of create and delete calls and of update
    calls on bundles of the declared type (which has no [createdAt] key); and
    so has every collection that such calls build from an empty store. *)
Theorem createdAt_le_updatedAt `{P : Platform} {L : PlatformLaws P}
    (mono : monotone_clock P) :
  (forall x w, createdAt (storage.create x w).1
               <= updatedAt (storage.create x w).1)
  /\ (forall ops w, settled w ->
        settled (run ops w)
        /\ forall n, In n (notes_of (run ops w)) -> createdAt n <= updatedAt n)
  /\ (forall ops w n, localStorage w !! STORAGE_KEY = None ->
        In n (notes_of (run ops w)) -> createdAt n <= updatedAt n).
Proof.
  split; [|split].
  - intros x w. destruct (create_run x w) as [-> _]. simpl. apply mono. lia.
  - intros ops w Hw. pose proof (settled_run mono ops w Hw) as H.
    split; [exact H|]. intros n Hn. apply (H n Hn).
  - intros ops w n E Hn.
    apply (settled_run mono ops w (settled_empty w E) n Hn).
Qed.

(** In the in-memory browser: a history of four calls from an empty store. *)
Lemma createdAt_le_updatedAt_witness :
  let w := run [op_create Sample.draft; op_update "u" Sample.tick;
                op_create Sample.draft; op_delete "u0"] fresh_world in
  Forall (fun n => createdAt n <= updatedAt n) (notes_of w)
  /\ map (fun n => (createdAt n, updatedAt n)) (notes_of w)
     = [(1700000000000, 1700000000002)].
Proof.
  intros w. split; [|vm_compute; reflexivity].
  apply List.Forall_forall. intros n Hn.
  destruct (createdAt_le_updatedAt (L := rw_laws) rw_clock) as (_ & _ & H).
  apply (H [op_create Sample.draft; op_update "u" Sample.tick;
            op_create Sample.draft; op_delete "u0"] fresh_world n);
    [reflexivity|exact Hn].
Defined.

(** C8, as the specification has it, fails for [update] on a bundle that
    carries a [createdAt]: the spread copies it over the stored one, and the
    clock of the call stamps updatedAt below it. *)
Lemma update_supplied_createdAt_breaks_order :
  ~ (forall (P : Platform), PlatformLaws P -> monotone_clock P ->
     forall (x : NoteInput) (id' : string) (b : Bundle) (n : Note),
       In n (notes_of
               (storage.update id' b (storage.create x fresh_world).2).2) ->
       createdAt n <= updatedAt n).
Proof.
  intros H.
  pose (b := {| fields := Sample.no_change;
                extra_id := None; extra_createdAt := Some 9999999999999 |}).
  pose (n := {| id := "u"; type := in_type Sample.draft;
                content := in_content Sample.draft;
                createdAt := 9999999999999; updatedAt := 1700000000002;
                tags := in_tags Sample.draft;
                completed := in_completed Sample.draft;
                title := in_title Sample.draft |}).
  assert (E : notes_of
                (storage.update "u" b
                   (storage.create Sample.draft fresh_world).2).2 = [n])
    by (vm_compute; reflexivity).
  specialize (H Fake.rw rw_laws rw_clock Sample.draft "u" b n).
  rewrite E in H. specialize (H (or_introl eq_refl)).
  cbn in H. lia.
Qed.

(** * The examples of the specification, run *)

Example filter_by_content :
  storage.filter [Sample.milk; Sample.cleanup]
    {| searchQuery := "milk"; typeFilter := Some all |} = [Sample.milk].
Proof. reflexivity. Qed.

Example filter_by_title :
  storage.filter [Sample.milk; Sample.cleanup]
    {| searchQuery := "cleanup"; typeFilter := Some all |} = [Sample.cleanup].
Proof. reflexivity. Qed.

Example filter_by_tag :
  storage.filter [Sample.milk; Sample.cleanup]
    {| searchQuery := "HOME"; typeFilter := Some all |} = [Sample.milk].
Proof. reflexivity. Qed.

Example filter_by_type :
  storage.filter [Sample.milk; Sample.cleanup]
    {| searchQuery := "  "; typeFilter := Some (only todo) |} = [Sample.milk].
Proof. reflexivity. Qed.

Example getAll_never_initialized : (storage.getAll fresh_world).1 = [].
Proof. reflexivity. Qed.

Example getAll_corrupted :
  storage.getAll
    {| localStorage := {[ STORAGE_KEY := "{oops" ]};
       reads := 0; draws := 0; console := [] |}
  = ([], {| localStorage := {[ STORAGE_KEY := "{oops" ]};
            reads := 0; draws := 0;
            console := ["Error reading from localStorage:"] |}).
Proof. reflexivity. Qed.

(** * More of the store

    What the calls of utils/storage.ts do beyond the claims above: how they
    compose, what they leave alone, and what they return at the edges. *)

Lemma find_first (l1 l2 : list Note) (old : Note) (id' : string) :
  id old = id' -> (forall m, In m l1 -> id m <> id') ->
  List.find (fun n => String.eqb (id n) id') (l1 ++ old :: l2) = Some old
  /\ JS.findIndex (fun n => String.eqb (id n) id') (l1 ++ old :: l2)
     = Some (length l1).
Proof.
  intros E H. induction l1 as [|y l1 IH]; simpl.
  - apply String.eqb_eq in E. rewrite E. auto.
  - assert (Ey : String.eqb (id y) id' = false).
    { apply String.eqb_neq. apply H. left. reflexivity. }
    rewrite Ey. destruct IH as [-> ->]; [|auto].
    intros m Hm. apply H. right. exact Hm.
Qed.

Lemma find_split {A} (p : A -> bool) (l : list A) (x : A) :
  List.find p l = Some x ->
  exists l1 l2, l = l1 ++ x :: l2 /\ p x = true
                /\ forall m, In m l1 -> p m = false.
Proof.
  induction l as [|y l IH]; simpl; [discriminate|].
  destruct (p y) eqn:E.
  - intros [= <-]. exists [], l. repeat split; [exact E|intros m []].
  - intros H. destruct (IH H) as (l1 & l2 & -> & Hx & Hl).
    exists (y :: l1), l2. repeat split; [exact Hx|].
    intros m [<-|Hm]; auto.
Qed.

Lemma alter_middle {A} (g : A -> A) (l1 l2 : list A) (x : A) :
  alter g (length l1) (l1 ++ x :: l2) = l1 ++ g x :: l2.
Proof. induction l1 as [|y l1 IH]; simpl; [reflexivity|]. f_equal. exact IH. Qed.

(** X1. Saving and loading is a round trip: after [saveAll ns], [getAll]
    returns [ns] when the storage took the write (and writes nothing on the
    console), and what it returned before when the storage refused it; in
    both cases no other key of localStorage is touched. *)
Theorem saveAll_then_getAll `{P : Platform} {L : PlatformLaws P}
    (ns : list Note) (w : World) :
  (storage.getAll (storage.saveAll ns w).2).1
  = (if storage_rejects (JSON_stringify ns) then (storage.getAll w).1 else ns)
  /\ (storage_rejects (JSON_stringify ns) = false ->
      storage.getAll (storage.saveAll ns w).2 = (ns, (storage.saveAll ns w).2))
  /\ (forall key, key <> STORAGE_KEY ->
        localStorage (storage.saveAll ns w).2 !! key = localStorage w !! key).
Proof.
  split; [apply notes_of_saveAll|]. split.
  - intros Hok. rewrite saveAll_run, Hok, getAll_run. simpl.
    rewrite lookup_insert_eq, stringify_truthy, parse_stringify. reflexivity.
  - intros key Hk. rewrite saveAll_run.
    destruct (storage_rejects _); simpl; [reflexivity|].
    apply lookup_insert_ne. congruence.
Qed.

(** In the in-memory browser: two notes saved over an empty storage. *)
Lemma saveAll_then_getAll_witness :
  (storage.getAll
     (storage.saveAll [Sample.milk; Sample.cleanup] fresh_world).2).1
  = [Sample.milk; Sample.cleanup].
Proof.
  destruct (saveAll_then_getAll (L := rw_laws) [Sample.milk; Sample.cleanup]
              fresh_world) as [H _].
  rewrite H. reflexivity.
Defined.

(** X2. [getById] returns the first note of the collection that has the id
    asked for, and null exactly when no note has it; it leaves localStorage
    as it is. *)
Theorem getById_first `{P : Platform} (id' : string) (w : World) :
  match (storage.getById id' w).1 with
  | Some n =>
      id n = id'
      /\ exists l1 l2, notes_of w = l1 ++ n :: l2
                       /\ forall m, In m l1 -> id m <> id'
  | None => forall m, In m (notes_of w) -> id m <> id'
  end
  /\ localStorage (storage.getById id' w).2 = localStorage w.
Proof.
  split; [|apply getAll_frame]. rewrite getById_run.
  destruct (List.find _ (notes_of w)) as [n|] eqn:E.
  - apply find_split in E as (l1 & l2 & El & Hn & Hl).
    apply String.eqb_eq in Hn. split; [exact Hn|].
    exists l1, l2. split; [exact El|].
    intros m Hm. apply String.eqb_neq. apply Hl. exact Hm.
  - intros m Hm. apply String.eqb_neq.
    apply (find_none _ _ E m Hm).
Qed.

Lemma find_app {A} (p : A -> bool) (l l' : list A) :
  List.find p (l ++ l') =
  match List.find p l with Some x => Some x | None => List.find p l' end.
Proof.
  induction l as [|y l IH]; simpl; [reflexivity|].
  destruct (p y); [reflexivity|exact IH].
Qed.

(** [update] on a collection split at the first note of the id. *)
Lemma update_at_first `{P : Platform} {L : PlatformLaws P}
    (id' : string) (b : Bundle) (w : World) (l1 l2 : list Note) (old : Note) :
  notes_of w = l1 ++ old :: l2 -> id old = id' ->
  (forall m, In m l1 -> id m <> id') ->
  let new := merge old b (Date_now (reads w)) in
  (storage.update id' b w).1 = Some new
  /\ updatedAt new = Date_now (reads w)
  /\ reads (storage.update id' b w).2 = S (reads w)
  /\ notes_of (storage.update id' b w).2
     = (if storage_rejects (JSON_stringify (l1 ++ new :: l2))
        then l1 ++ old :: l2 else l1 ++ new :: l2).
Proof.
  intros El Eid Hl1. cbv zeta.
  destruct (find_first l1 l2 old id' Eid Hl1) as [_ Hi].
  pose proof (notes_of_update id' b w) as Hn.
  pose proof (update_frame id' b w) as Hr.
  rewrite El in *. rewrite Hi in *. cbv zeta in *.
  rewrite alter_middle in *.
  split; [|split; [reflexivity|split; [exact Hr|exact Hn]]].
  rewrite update_run, El, Hi. cbv zeta. rewrite alter_middle. cbn [fst snd].
  apply list_lookup_middle. reflexivity.
Qed.

(** X3. When a note has the id, [update] replaces the first such note, in
    place, by the merge of the bundle over it, stamped with the clock read
    of the call whatever updatedAt the bundle carries; the notes before and
    after it keep their value and their position, and the merged note is
    returned even when the storage refuses the write and the collection
    stays as it was. *)
Theorem update_in_place `{P : Platform} {L : PlatformLaws P}
    (id' : string) (b : Bundle) (w : World) (l1 l2 : list Note) (old : Note) :
  notes_of w = l1 ++ old :: l2 -> id old = id' ->
  (forall m, In m l1 -> id m <> id') ->
  let new := merge old b (Date_now (reads w)) in
  (storage.update id' b w).1 = Some new
  /\ updatedAt new = Date_now (reads w)
  /\ reads (storage.update id' b w).2 = S (reads w)
  /\ notes_of (storage.update id' b w).2
     = (if storage_rejects (JSON_stringify (l1 ++ new :: l2))
        then l1 ++ old :: l2 else l1 ++ new :: l2).
Proof.
  intros El Eid Hl1. cbv zeta.
  destruct (find_first l1 l2 old id' Eid Hl1) as [_ Hi].
  pose proof (notes_of_update id' b w) as Hn.
  pose proof (update_frame id' b w) as Hr.
  rewrite El in *. rewrite Hi in *. cbv zeta in *.
  rewrite alter_middle in *.
  split; [|split; [reflexivity|split; [exact Hr|exact Hn]]].
  rewrite update_run, El, Hi. cbv zeta. rewrite alter_middle. cbn [fst snd].
  apply list_lookup_middle. reflexivity.
Qed.

(** In the in-memory browser: ticking the second of two notes. *)
Lemma update_in_place_witness :
  let w := Fake.holding [Sample.milk; Sample.cleanup] in
  notes_of (storage.update "n2" (typed Sample.tick) w).2
  = [Sample.milk; merge Sample.cleanup (typed Sample.tick) 1700000000000].
Proof.
  intros w.
  assert (Ew : notes_of w = [Sample.milk] ++ Sample.cleanup :: [])
    by (vm_compute; reflexivity).
  assert (Er : reads w = 0%nat) by reflexivity.
  clearbody w.
  destruct (update_in_place (L := rw_laws) "n2" (typed Sample.tick) w
              [Sample.milk] [] Sample.cleanup Ew eq_refl) as (_ & _ & _ & H).
  - intros m [<-|[]]. discriminate.
  - rewrite H, Er. reflexivity.
Defined.

(** X4. After an [update] at the declared type whose write the storage took,
    [getById] on the same id returns the note that [update] returned. *)
Theorem update_then_getById `{P : Platform} {L : PlatformLaws P}
    (id' : string) (u : NoteUpdates) (w : World) (l1 l2 : list Note)
    (old : Note) :
  notes_of w = l1 ++ old :: l2 -> id old = id' ->
  (forall m, In m l1 -> id m <> id') ->
  storage_rejects
    (JSON_stringify (l1 ++ merge old (typed u) (Date_now (reads w)) :: l2))
  = false ->
  (storage.getById id' (storage.update id' (typed u) w).2).1
  = (storage.update id' (typed u) w).1.
Proof.
  intros El Eid Hl1 Hok.
  destruct (update_at_first id' (typed u) w l1 l2 old El Eid Hl1)
    as (-> & _ & _ & Hn).
  rewrite getById_run, Hn, Hok.
  apply (find_first l1 l2 _ id'); [exact Eid|exact Hl1].
Qed.

(** In the in-memory browser: the ticked note is the one found. *)
Lemma update_then_getById_witness :
  let w := Fake.holding [Sample.milk; Sample.cleanup] in
  (storage.getById "n2" (storage.update "n2" (typed Sample.tick) w).2).1
  = (storage.update "n2" (typed Sample.tick) w).1.
Proof.
  intros w.
  assert (Ew : notes_of w = [Sample.milk] ++ Sample.cleanup :: [])
    by (vm_compute; reflexivity).
  clearbody w.
  apply (update_then_getById (L := rw_laws) "n2" Sample.tick w
           [Sample.milk] [] Sample.cleanup Ew eq_refl).
  - intros m [<-|[]]. discriminate.
  - reflexivity.
Defined.

Section Timely.
Context `{P : Platform} {L : PlatformLaws P}.
Hypothesis mono : monotone_clock P.

Lemma timely_later (w : World) (k : nat) (n : Note) :
  timely w -> In n (notes_of w) -> (reads w <= k)%nat ->
  updatedAt n <= Date_now k.
Proof.
  intros Hw Hn Hk. etransitivity; [apply (Hw n Hn)|]. apply mono. exact Hk.
Qed.

Lemma timely_step (o : Op) (w : World) : timely w -> timely (step o w).
Proof.
  intros Hw n. destruct o as [x|id' u|id']; cbn [step].
  - pose proof (notes_of_create x w) as Hn. cbv zeta in Hn.
    destruct (create_frame x w) as [-> _]. rewrite Hn. clear Hn.
    destruct (storage_rejects _).
    + intros Hin. apply (timely_later w); [assumption..|lia].
    + rewrite in_app_iff. intros [Hin|[<-|[]]].
      * apply (timely_later w); [assumption..|lia].
      * destruct (create_run x w) as [-> _]. simpl. apply mono. lia.
  - rewrite notes_of_update, update_frame.
    destruct (JS.findIndex _ (notes_of w)) as [i|]; [|apply Hw].
    cbv zeta. destruct (storage_rejects _).
    + intros Hin. apply (timely_later w); [assumption..|lia].
    + intros Hin. apply In_alter in Hin as [Hin|(m & Hm & ->)].
      * apply (timely_later w); [assumption..|lia].
      * simpl. apply mono. lia.
  - pose proof (notes_of_delete id' w) as Hn. cbv zeta in Hn.
    rewrite Hn, delete_frame. clear Hn.
    destruct (_ =? _)%nat; [apply Hw|].
    destruct (storage_rejects _); [apply Hw|].
    intros Hin. apply filter_In in Hin as [Hin _]. apply Hw. exact Hin.
Qed.

Lemma timely_run (ops : list Op) (w : World) : timely w -> timely (run ops w).
Proof.
  revert w. induction ops as [|o ops IH]; intros w Hw; [exact Hw|].
  apply (IH (step o w)). apply timely_step. exact Hw.
Qed.

End Timely.

(** X5. Under a clock that never runs backwards, updatedAt never decreases:
    in a store none of whose notes was updated after the next read of the
    clock (which every history of create, update and delete calls keeps
    true), the note that [update] returns is stamped no earlier than the
    note it replaces. *)
Theorem updatedAt_never_decreases `{P : Platform} {L : PlatformLaws P}
    (mono : monotone_clock P) :
  (forall ops w, timely w -> timely (run ops w))
  /\ (forall w id' b old n',
        timely w ->
        (storage.getById id' w).1 = Some old ->
        (storage.update id' b w).1 = Some n' ->
        updatedAt old <= updatedAt n').
Proof.
  split; [intros ops w; apply (timely_run mono)|].
  intros w id' b old n' Hw Hold. rewrite getById_run in Hold.
  apply find_split in Hold as (l1 & l2 & El & Hid & Hl1).
  apply String.eqb_eq in Hid.
  destruct (update_at_first id' b w l1 l2 old El Hid) as (-> & _).
  { intros m Hm. apply String.eqb_neq. auto. }
  intros [= <-]. simpl. apply Hw. rewrite El, in_app_iff. right. left.
  reflexivity.
Qed.

(** In the in-memory browser: a note created, then updated twice. *)
Lemma updatedAt_never_decreases_witness :
  let w := run [op_create Sample.draft; op_update "u" Sample.tick] fresh_world in
  timely w
  /\ map updatedAt (notes_of w) = [1700000000002]
  /\ updatedAt <$> (storage.update "u" (typed Sample.no_change) w).1
     = Some 1700000000003.
Proof.
  intros w.
  destruct (updatedAt_never_decreases (L := rw_laws) rw_clock) as [H _].
  split; [|split; vm_compute; reflexivity].
  apply (H [op_create Sample.draft; op_update "u" Sample.tick] fresh_world).
  intros n [].
Defined.

Lemma delete_test_length (id' : string) (l : list Note) :
  (length (List.filter (fun n => negb (String.eqb (id n) id')) l)
   =? length l)%nat
  = negb (existsb (fun n => String.eqb (id n) id') l).
Proof.
  assert (Hle : forall l : list Note,
            (length (List.filter (fun n => negb (String.eqb (id n) id')) l)
             <= length l)%nat).
  { intros l0. induction l0 as [|y l0 IH]; simpl; [lia|].
    destruct (String.eqb (id y) id'); simpl; lia. }
  induction l as [|y l IH]; simpl; [reflexivity|].
  destruct (String.eqb (id y) id'); simpl.
  - apply Nat.eqb_neq. specialize (Hle l). lia.
  - exact IH.
Qed.

Lemma find_filtered_out (id' : string) (l : list Note) :
  List.find (fun n => String.eqb (id n) id')
    (List.filter (fun n => negb (String.eqb (id n) id')) l) = None.
Proof.
  induction l as [|y l IH]; simpl; [reflexivity|].
  destruct (String.eqb (id y) id') eqn:E; simpl; [exact IH|].
  rewrite E. exact IH.
Qed.

Lemma existsb_filtered_out (id' : string) (l : list Note) :
  existsb (fun n => String.eqb (id n) id')
    (List.filter (fun n => negb (String.eqb (id n) id')) l) = false.
Proof.
  induction l as [|y l IH]; simpl; [reflexivity|].
  destruct (String.eqb (id y) id') eqn:E; simpl; [exact IH|].
  rewrite E. exact IH.
Qed.

(** [delete] in terms of the notes of the id and the others. *)
Lemma delete_all_of `{P : Platform} {L : PlatformLaws P}
    (id' : string) (w : World) :
  let filtered :=
    List.filter (fun n => negb (String.eqb (id n) id')) (notes_of w) in
  (storage.delete id' w).1
  = existsb (fun n => String.eqb (id n) id') (notes_of w)
  /\ (storage_rejects (JSON_stringify filtered) = false ->
      notes_of (storage.delete id' w).2 = filtered
      /\ (storage.getById id' (storage.delete id' w).2).1 = None
      /\ (storage.delete id' (storage.delete id' w).2).1 = false).
Proof.
  cbv zeta.
  assert (Hret : forall w0, (storage.delete id' w0).1
            = existsb (fun n => String.eqb (id n) id') (notes_of w0)).
  { intros w0. rewrite delete_run. cbv zeta. rewrite delete_test_length.
    destruct (existsb _ (notes_of w0)); reflexivity. }
  split; [apply Hret|]. intros Hok.
  assert (Hn : notes_of (storage.delete id' w).2
               = List.filter (fun n => negb (String.eqb (id n) id'))
                   (notes_of w)).
  { pose proof (notes_of_delete id' w) as Hn. cbv zeta in Hn.
    rewrite Hn, Hok, delete_test_length. clear Hn.
    destruct (existsb _ (notes_of w)) eqn:E; simpl; [reflexivity|].
    symmetry. apply filter_all. intros n Hin.
    destruct (String.eqb (id n) id') eqn:En; [|reflexivity].
    assert (existsb (fun n => String.eqb (id n) id') (notes_of w) = true)
      by (apply existsb_exists; eauto).
    congruence. }
  split; [exact Hn|]. split.
  - rewrite getById_run, Hn. apply find_filtered_out.
  - rewrite Hret, Hn. apply existsb_filtered_out.
Qed.

(** X6. Whatever the collection (ids unique or not), [delete] returns
    whether some note has the id, and hands [saveAll] the collection without
    all the notes of that id. Once the storage has taken that write, the
    collection holds the other notes in their order, [getById] on the id
    returns null, and a second [delete] of the id returns false. *)
Theorem delete_every_match `{P : Platform} {L : PlatformLaws P}
    (id' : string) (w : World) :
  let filtered :=
    List.filter (fun n => negb (String.eqb (id n) id')) (notes_of w) in
  (storage.delete id' w).1
  = existsb (fun n => String.eqb (id n) id') (notes_of w)
  /\ (storage_rejects (JSON_stringify filtered) = false ->
      notes_of (storage.delete id' w).2 = filtered
      /\ (storage.getById id' (storage.delete id' w).2).1 = None
      /\ (storage.delete id' (storage.delete id' w).2).1 = false).
Proof.
  cbv zeta.
  assert (Hret : forall w0, (storage.delete id' w0).1
            = existsb (fun n => String.eqb (id n) id') (notes_of w0)).
  { intros w0. rewrite delete_run. cbv zeta. rewrite delete_test_length.
    destruct (existsb _ (notes_of w0)); reflexivity. }
  split; [apply Hret|]. intros Hok.
  assert (Hn : notes_of (storage.delete id' w).2
               = List.filter (fun n => negb (String.eqb (id n) id'))
                   (notes_of w)).
  { pose proof (notes_of_delete id' w) as Hn. cbv zeta in Hn.
    rewrite Hn, Hok, delete_test_length. clear Hn.
    destruct (existsb _ (notes_of w)) eqn:E; simpl; [reflexivity|].
    symmetry. apply filter_all. intros n Hin.
    destruct (String.eqb (id n) id') eqn:En; [|reflexivity].
    assert (existsb (fun n => String.eqb (id n) id') (notes_of w) = true)
      by (apply existsb_exists; eauto).
    congruence. }
  split; [exact Hn|]. split.
  - rewrite getById_run, Hn. apply find_filtered_out.
  - rewrite Hret, Hn. apply existsb_filtered_out.
Qed.

(** In the in-memory browser: one id stored twice, deleted in one call. *)
Lemma delete_every_match_witness :
  let w := Fake.holding [Sample.milk; Sample.cleanup; Sample.milk] in
  (storage.delete "n1" w).1 = true
  /\ notes_of (storage.delete "n1" w).2 = [Sample.cleanup].
Proof.
  intros w.
  assert (Ew : notes_of w = [Sample.milk; Sample.cleanup; Sample.milk])
    by (vm_compute; reflexivity).
  clearbody w.
  destruct (delete_every_match (L := rw_laws) "n1" w) as [Hr Hn].
  destruct (Hn eq_refl) as (Hn' & _). rewrite Hr, Hn', Ew. split; reflexivity.
Defined.

(** X7. Creating a note and deleting it by the id returned gives the
    collection back, when the id drawn is not already in the collection and
    the storage takes both writes. *)
Theorem create_then_delete `{P : Platform} {L : PlatformLaws P}
    (x : NoteInput) (w : World) :
  let n := (storage.create x w).1 in
  ~ In (id n) (map id (notes_of w)) ->
  storage_rejects (JSON_stringify (notes_of w ++ [n])) = false ->
  storage_rejects (JSON_stringify (notes_of w)) = false ->
  (storage.delete (id n) (storage.create x w).2).1 = true
  /\ notes_of (storage.delete (id n) (storage.create x w).2).2 = notes_of w.
Proof.
  cbv zeta. intros Hfresh Hok1 Hok2.
  pose proof (notes_of_create x w) as Hc. cbv zeta in Hc. rewrite Hok1 in Hc.
  assert (Hf : List.filter
                 (fun m => negb (String.eqb (id m) (id (storage.create x w).1)))
                 (notes_of w ++ [(storage.create x w).1]) = notes_of w).
  { rewrite List.filter_app, filter_out_absent by exact Hfresh.
    simpl. rewrite String.eqb_refl. simpl. apply app_nil_r. }
  destruct (delete_all_of (id (storage.create x w).1)
              (storage.create x w).2) as [Hr Hn].
  rewrite Hc in *. rewrite Hf in Hn. split.
  - rewrite Hr, existsb_app. simpl. rewrite String.eqb_refl.
    rewrite orb_true_r. reflexivity.
  - apply Hn. exact Hok2.
Qed.

(** In the in-memory browser: a draft created over two notes, then deleted. *)
Lemma create_then_delete_witness :
  let w := Fake.holding [Sample.milk; Sample.cleanup] in
  notes_of (storage.delete "u" (storage.create Sample.draft w).2).2
  = [Sample.milk; Sample.cleanup].
Proof.
  intros w.
  assert (Ew : notes_of w = [Sample.milk; Sample.cleanup])
    by (vm_compute; reflexivity).
  assert (Ei : id (storage.create Sample.draft w).1 = "u") by reflexivity.
  clearbody w.
  destruct (create_then_delete (L := rw_laws) Sample.draft w) as [_ H].
  - rewrite Ei, Ew. simpl. intuition discriminate.
  - reflexivity.
  - reflexivity.
  - rewrite Ei in H. rewrite H. exact Ew.
Defined.

(** X8. [create] does not disturb the notes that are there: for every id
    other than the one just drawn, and for every id already in the
    collection, [getById] returns after the call what it returned before,
    whether or not the storage took the write. *)
Theorem create_keeps_lookups `{P : Platform} {L : PlatformLaws P}
    (x : NoteInput) (w : World) (id' : string) :
  id' <> id (storage.create x w).1 \/ In id' (map id (notes_of w)) ->
  (storage.getById id' (storage.create x w).2).1 = (storage.getById id' w).1.
Proof.
  intros H. rewrite !getById_run.
  pose proof (notes_of_create x w) as Hc. cbv zeta in Hc. rewrite Hc. clear Hc.
  destruct (storage_rejects _); [reflexivity|].
  rewrite find_app.
  destruct (List.find _ (notes_of w)) as [m|] eqn:E; [reflexivity|].
  cbn [List.find].
  destruct (String.eqb (id (storage.create x w).1) id') eqn:En;
    [|reflexivity].
  apply String.eqb_eq in En. destruct H as [H|H]; [congruence|].
  apply in_map_iff in H as (m & Hm & Hin).
  apply (find_none _ _ E) in Hin. apply String.eqb_neq in Hin. congruence.
Qed.

(** In the in-memory browser: "n2" is found as before after a creation. *)
Lemma create_keeps_lookups_witness :
  let w := Fake.holding [Sample.milk; Sample.cleanup] in
  (storage.getById "n2" (storage.create Sample.draft w).2).1
  = Some Sample.cleanup.
Proof.
  intros w.
  assert (Eg : (storage.getById "n2" w).1 = Some Sample.cleanup)
    by (vm_compute; reflexivity).
  assert (Ei : id (storage.create Sample.draft w).1 = "u") by reflexivity.
  clearbody w.
  rewrite (create_keeps_lookups (L := rw_laws) Sample.draft w "n2");
    [exact Eg|].
  left. rewrite Ei. discriminate.
Defined.

(** X9. Ids are unique across the collection: with a generator that does not
    repeat, every collection that create, update and delete calls build from
    an empty store has no two notes of the same id, and the next note
    created gets an id that none of them has. *)
Theorem ids_stay_unique `{P : Platform} {L : PlatformLaws P}
    (uuids : distinct_uuids P) (ops : list Op) (w : World) :
  localStorage w !! STORAGE_KEY = None ->
  List.NoDup (map id (notes_of (run ops w)))
  /\ forall x, ~ In (id (storage.create x (run ops w)).1)
                 (map id (notes_of (run ops w))).
Proof.
  intros E.
  assert (Hd : ids_drawn (run ops w)).
  { apply (ids_drawn_run uuids). unfold ids_drawn, notes_of.
    rewrite getAll_run, E. simpl. split; [constructor|intros n []]. }
  split; [apply Hd|]. intros x.
  destruct (create_run x (run ops w)) as [-> _]. simpl.
  apply fresh_draw; assumption.
Qed.

(** In the in-memory browser: three creations, one deletion. *)
Lemma ids_stay_unique_witness :
  let w := run [op_create Sample.draft; op_create Sample.draft;
                op_delete "u"; op_create Sample.draft] fresh_world in
  List.NoDup (map id (notes_of w)) /\ map id (notes_of w) = ["u0"; "u1"].
Proof.
  intros w. split; [|vm_compute; reflexivity].
  apply (ids_stay_unique (L := rw_laws) rw_uuids
           [op_create Sample.draft; op_create Sample.draft;
            op_delete "u"; op_create Sample.draft] fresh_world).
  reflexivity.
Defined.

(** * More of [filter] *)

Lemma filter_idem {A} (p : A -> bool) (l : list A) :
  List.filter p (List.filter p l) = List.filter p l.
Proof.
  rewrite filter_twice. apply filter_ext. intros x. destruct (p x); reflexivity.
Qed.

(** X10. Filtering is idempotent and works note by note: filtering a result
    again with the same criteria changes nothing, the result for two lists
    put end to end is the two results put end to end, and it never has more
    notes than the input. *)
Theorem filter_idempotent (notes notes' : list Note) (f : NoteFilters) :
  storage.filter (storage.filter notes f) f = storage.filter notes f
  /\ storage.filter (notes ++ notes') f
     = storage.filter notes f ++ storage.filter notes' f
  /\ (length (storage.filter notes f) <= length notes)%nat.
Proof.
  rewrite !filter_keeps. split; [apply filter_idem|].
  split; [apply List.filter_app|apply List.filter_length_le].
Qed.

(** X11. The two passes of [filter] do not depend on each other: filtering
    by query and type at once is filtering by query and then by type, and is
    filtering by type and then by query. *)
Theorem filter_passes_commute (notes : list Note) (q : string) (t : NoteType) :
  storage.filter notes {| searchQuery := q; typeFilter := Some (only t) |}
  = storage.filter
      (storage.filter notes {| searchQuery := q; typeFilter := Some all |})
      {| searchQuery := ""; typeFilter := Some (only t) |}
  /\ storage.filter notes {| searchQuery := q; typeFilter := Some (only t) |}
     = storage.filter
         (storage.filter notes
            {| searchQuery := ""; typeFilter := Some (only t) |})
         {| searchQuery := q; typeFilter := Some all |}.
Proof.
  rewrite !filter_keeps, !filter_twice.
  split; apply filter_ext; intros n; unfold keeps; simpl;
    destruct (JS.truthy (JS.trim q)); simpl;
    rewrite ?andb_true_r; try reflexivity.
  apply andb_comm.
Qed.

(** * The list of notes (NoteList.tsx) *)

Section Sorting.
Context {A : Type} (key : A -> Z).

(** The comparator of the list, on any key: larger keys first. *)
Let newest_first (a b : A) : Z := key b - key a.

Lemma insert_perm (x : A) (l : list A) :
  Permutation (JS.insert newest_first x l) (x :: l).
Proof.
  induction l as [|y l IH]; simpl; [reflexivity|].
  destruct (newest_first x y <=? 0); [reflexivity|].
  rewrite IH. apply perm_swap.
Qed.

Lemma sort_perm (l : list A) : Permutation (JS.sort newest_first l) l.
Proof.
  induction l as [|x l IH]; simpl; [reflexivity|].
  rewrite insert_perm, IH. reflexivity.
Qed.

Lemma insert_sorted (x : A) (l : list A) :
  StronglySorted (fun a b => key b <= key a) l ->
  StronglySorted (fun a b => key b <= key a) (JS.insert newest_first x l).
Proof.
  intros Hl. induction Hl as [|y l Hl IH Hy]; simpl.
  - repeat constructor.
  - unfold newest_first at 1. destruct (key y - key x <=? 0) eqn:E.
    + apply Z.leb_le in E. constructor; [constructor; assumption|].
      constructor; [lia|].
      apply List.Forall_impl with (2 := Hy). intros z Hz. lia.
    + apply Z.leb_gt in E. constructor; [exact IH|].
      rewrite insert_perm. constructor; [lia|exact Hy].
Qed.

Lemma sort_sorted (l : list A) :
  StronglySorted (fun a b => key b <= key a) (JS.sort newest_first l).
Proof.
  induction l as [|x l IH]; simpl; [constructor|].
  apply insert_sorted. exact IH.
Qed.

Lemma insert_same_key (t : Z) (x : A) (l : list A) :
  List.filter (fun a => key a =? t) (JS.insert newest_first x l)
  = List.filter (fun a => key a =? t) (x :: l).
Proof.
  induction l as [|y l IH]; [reflexivity|].
  cbn [JS.insert]. unfold newest_first at 1.
  destruct (key y - key x <=? 0) eqn:E; [reflexivity|].
  apply Z.leb_gt in E. cbn [List.filter] in *. rewrite IH.
  destruct (key x =? t) eqn:Ex, (key y =? t) eqn:Ey; try reflexivity.
  apply Z.eqb_eq in Ex, Ey. lia.
Qed.

Lemma sort_same_key (t : Z) (l : list A) :
  List.filter (fun a => key a =? t) (JS.sort newest_first l)
  = List.filter (fun a => key a =? t) l.
Proof.
  induction l as [|x l IH]; [reflexivity|].
  cbn [JS.sort]. rewrite insert_same_key. cbn [List.filter]. rewrite IH.
  reflexivity.
Qed.

End Sorting.

(** X12. The list shows exactly the notes that [filter] selects (each as
    many times), the most recently updated first, and notes updated at the
    same millisecond in the order of the collection. *)
Theorem visible_newest_first (notes : list Note) (filters : NoteFilters) :
  Permutation (NoteList.visible notes filters) (storage.filter notes filters)
  /\ StronglySorted (fun a b => updatedAt b <= updatedAt a)
       (NoteList.visible notes filters)
  /\ (forall t,
        List.filter (fun n => updatedAt n =? t) (NoteList.visible notes filters)
        = List.filter (fun n => updatedAt n =? t) (storage.filter notes filters)).
Proof.
  unfold NoteList.visible. split; [apply (sort_perm updatedAt)|].
  split; [apply (sort_sorted updatedAt)|].
  intros t. apply (sort_same_key updatedAt).
Qed.

Section ComponentFacts.
Context `{P : Platform}.

Lemma getAll_keeps (w : World) :
  notes_of (storage.getAll w).2 = notes_of w
  /\ reads (storage.getAll w).2 = reads w
  /\ draws (storage.getAll w).2 = draws w.
Proof.
  split; [apply notes_of_getAll|]. destruct (getAll_frame w) as (_ & Hr & Hd).
  auto.
Qed.

Lemma showToast_run (m : string) (t : option string) (d : Dashboard.state)
    (w : World) :
  (Dashboard.showToast m t d w).1
  = {| Dashboard.filters := Dashboard.filters d;
       Dashboard.refreshKey := Dashboard.refreshKey d;
       Dashboard.toasts :=
         Dashboard.toasts d
         ++ [{| Dashboard.toast_id := randomUUID (draws w);
                Dashboard.message := m;
                Dashboard.toast_type := default "success" t |}] |}
  /\ notes_of (Dashboard.showToast m t d w).2 = notes_of w
  /\ reads (Dashboard.showToast m t d w).2 = reads w
  /\ draws (Dashboard.showToast m t d w).2 = S (draws w)
  /\ localStorage (Dashboard.showToast m t d w).2 = localStorage w.
Proof.
  split; [reflexivity|]. split; [apply notes_of_slot; reflexivity|].
  repeat split.
Qed.

Lemma loadNotes_run (s : NoteList.state) (w : World) :
  (NoteList.loadNotes s w).1
  = {| NoteList.notes := notes_of w;
       NoteList.editingNote := NoteList.editingNote s;
       NoteList.noteToDelete := NoteList.noteToDelete s |}
  /\ (NoteList.loadNotes s w).2 = (storage.getAll w).2.
Proof. split; reflexivity. Qed.

(** The toggle when the note is found, call by call. *)
Lemma handleToggleComplete_found (id' : string) (s : NoteList.state)
    (d : Dashboard.state) (w : World) (old : Note) :
  (storage.getById id' w).1 = Some old ->
  let flag := negb (JS.truthy_opt (completed old)) in
  let w2 := (storage.update id'
               (typed {| up_type := None; up_content := None;
                         up_updatedAt := None; up_tags := None;
                         up_title := None;
                         up_completed := Some (Some flag) |})
               (storage.getAll w).2).2 in
  let dt := Dashboard.showToast
              (if flag then "Todo marked as complete!"
               else "Todo marked as incomplete") None d w2 in
  NoteList.handleToggleComplete id' s d w
  = (((NoteList.loadNotes s dt.2).1, Dashboard.handleNoteUpdate dt.1),
     (NoteList.loadNotes s dt.2).2).
Proof.
  intros E. unfold NoteList.handleToggleComplete. rewrite bind_run, E.
  reflexivity.
Qed.

End ComponentFacts.

(** What a toggle that finds its note leaves behind. *)
Lemma toggle_found `{P : Platform} {L : PlatformLaws P}
    (id' : string) (s : NoteList.state) (d : Dashboard.state) (w : World)
    (l1 l2 : list Note) (old : Note) :
  notes_of w = l1 ++ old :: l2 -> id old = id' ->
  (forall m, In m l1 -> id m <> id') ->
  let flag := negb (JS.truthy_opt (completed old)) in
  let new :=
    {| id := id old; type := type old; content := content old;
       createdAt := createdAt old; updatedAt := Date_now (reads w);
       tags := tags old; completed := Some flag; title := title old |} in
  let r := NoteList.handleToggleComplete id' s d w in
  notes_of r.2
  = (if storage_rejects (JSON_stringify (l1 ++ new :: l2))
     then l1 ++ old :: l2 else l1 ++ new :: l2)
  /\ reads r.2 = S (reads w)
  /\ r.1.1 = {| NoteList.notes := notes_of r.2;
                NoteList.editingNote := NoteList.editingNote s;
                NoteList.noteToDelete := NoteList.noteToDelete s |}
  /\ r.1.2
     = {| Dashboard.filters := Dashboard.filters d;
          Dashboard.refreshKey := Dashboard.refreshKey d + 1;
          Dashboard.toasts :=
            Dashboard.toasts d
            ++ [{| Dashboard.toast_id := randomUUID (draws w);
                   Dashboard.message :=
                     if flag then "Todo marked as complete!"
                     else "Todo marked as incomplete";
                   Dashboard.toast_type := "success" |}] |}.
Proof.
  intros El Eid Hl1. cbv zeta.
  destruct (find_first l1 l2 old id' Eid Hl1) as [Hf _].
  assert (E : (storage.getById id' w).1 = Some old)
    by (rewrite getById_run, El; exact Hf).
  rewrite (handleToggleComplete_found id' s d w old E). cbv zeta.
  cbn [fst snd].
  destruct (getAll_keeps w) as (Hn1 & Hr1 & Hd1).
  rewrite El in Hn1.
  match goal with |- context [storage.update id' ?b ?w1] =>
    pose proof (update_at_first id' b w1 l1 l2 old Hn1 Eid Hl1) as Hu;
    pose proof (update_draws id' b w1) as Hdr;
    set (w2 := (storage.update id' b w1).2) in *
  end.
  cbv zeta in Hu. destruct Hu as (_ & _ & Hr2 & Hn2). rewrite Hr1 in Hn2, Hr2.
  match goal with |- context [Dashboard.showToast ?m ?t d w2] =>
    destruct (showToast_run m t d w2) as (Hd3 & Hn3 & Hr3 & _ & _);
    set (dt := Dashboard.showToast m t d w2) in *
  end.
  destruct (loadNotes_run s dt.2) as [Hs4 Hw4]. rewrite Hs4, Hw4, Hd3.
  destruct (getAll_keeps dt.2) as (Hn5 & Hr5 & _).
  rewrite Hn5, Hr5, Hn3, Hr3, Hr2, Hdr, Hd1.
  split; [exact Hn2|]. split; [reflexivity|]. split; reflexivity.
Qed.

(** X13. Toggling a todo. When no note has the id, the handler does nothing:
    no write, no toast, no reload. When one has, the first such note gets
    the opposite of its completion flag (an absent flag counts as false)
    and a new updatedAt, nothing else in it changes; the toast tells the new
    state; and the list reloads what the store then holds, which is the old
    collection when the storage refused the write. *)
Theorem toggle_complete `{P : Platform} {L : PlatformLaws P}
    (id' : string) (s : NoteList.state) (d : Dashboard.state) (w : World) :
  ((forall m, In m (notes_of w) -> id m <> id') ->
   NoteList.handleToggleComplete id' s d w = ((s, d), (storage.getAll w).2))
  /\ (forall l1 old l2,
        notes_of w = l1 ++ old :: l2 -> id old = id' ->
        (forall m, In m l1 -> id m <> id') ->
        let flag := negb (JS.truthy_opt (completed old)) in
        let new :=
          {| id := id old; type := type old; content := content old;
             createdAt := createdAt old; updatedAt := Date_now (reads w);
             tags := tags old; completed := Some flag; title := title old |} in
        let r := NoteList.handleToggleComplete id' s d w in
        notes_of r.2
        = (if storage_rejects (JSON_stringify (l1 ++ new :: l2))
           then l1 ++ old :: l2 else l1 ++ new :: l2)
        /\ NoteList.notes r.1.1 = notes_of r.2
        /\ Dashboard.toasts r.1.2
           = Dashboard.toasts d
             ++ [{| Dashboard.toast_id := randomUUID (draws w);
                    Dashboard.message :=
                      if flag then "Todo marked as complete!"
                      else "Todo marked as incomplete";
                    Dashboard.toast_type := "success" |}]
        /\ Dashboard.refreshKey r.1.2 = Dashboard.refreshKey d + 1).
Proof.
  split.
  - intros Hmiss. unfold NoteList.handleToggleComplete. rewrite bind_run.
    assert (E : (storage.getById id' w).1 = None).
    { rewrite getById_run. destruct (List.find _ (notes_of w)) as [n|] eqn:E;
        [|reflexivity].
      apply find_some in E as [Hin Hid]. apply String.eqb_eq in Hid.
      destruct (Hmiss n Hin Hid). }
    rewrite E. reflexivity.
  - intros l1 old l2 El Eid Hl1. cbv zeta.
    destruct (toggle_found id' s d w l1 l2 old El Eid Hl1)
      as (Hn & _ & -> & ->).
    split; [exact Hn|]. repeat split.
Qed.

(** In the in-memory browser: the todo "n1", not done, is ticked. *)
Lemma toggle_complete_witness :
  let r := NoteList.handleToggleComplete "n1"
             {| NoteList.notes := []; NoteList.editingNote := None;
                NoteList.noteToDelete := None |}
             Dashboard.initial (Fake.holding [Sample.milk; Sample.cleanup]) in
  map completed (NoteList.notes r.1.1) = [Some true; None]
  /\ map Dashboard.message (Dashboard.toasts r.1.2)
     = ["Todo marked as complete!"].
Proof.
  cbv zeta.
  pose proof (toggle_complete (L := rw_laws) "n1"
                {| NoteList.notes := []; NoteList.editingNote := None;
                   NoteList.noteToDelete := None |}
                Dashboard.initial (Fake.holding [Sample.milk; Sample.cleanup]))
    as [_ H].
  destruct (H [] Sample.milk [Sample.cleanup]) as (Hn & Hs & Ht & _).
  - vm_compute. reflexivity.
  - reflexivity.
  - intros m [].
  - rewrite Hs, Hn, Ht. split; reflexivity.
Defined.

(** X14. Toggling a todo twice, on storage that takes every write, gives the
    note its flag back, as a boolean (a flag that was absent is now false),
    and moves its updatedAt to the second call; the rest of the collection
    is as it was. *)
Theorem toggle_twice `{P : Platform} {L : PlatformLaws P}
    (id' : string) (s : NoteList.state) (d : Dashboard.state) (w : World)
    (l1 l2 : list Note) (old : Note) :
  (forall v, storage_rejects v = false) ->
  notes_of w = l1 ++ old :: l2 -> id old = id' ->
  (forall m, In m l1 -> id m <> id') ->
  let r1 := NoteList.handleToggleComplete id' s d w in
  let r2 := NoteList.handleToggleComplete id' r1.1.1 r1.1.2 r1.2 in
  notes_of r2.2
  = l1 ++ {| id := id old; type := type old; content := content old;
             createdAt := createdAt old;
             updatedAt := Date_now (S (reads w));
             tags := tags old;
             completed := Some (JS.truthy_opt (completed old));
             title := title old |} :: l2.
Proof.
  intros Hok El Eid Hl1. cbv zeta.
  destruct (toggle_found id' s d w l1 l2 old El Eid Hl1) as (Hn1 & Hr1 & _).
  cbv zeta in Hn1. rewrite Hok in Hn1.
  match type of Hn1 with _ = l1 ++ ?new :: l2 =>
    destruct (toggle_found id'
                (NoteList.handleToggleComplete id' s d w).1.1
                (NoteList.handleToggleComplete id' s d w).1.2
                (NoteList.handleToggleComplete id' s d w).2
                l1 l2 new Hn1 Eid Hl1) as (Hn2 & _)
  end.
  cbv zeta in Hn2. rewrite Hok, Hr1 in Hn2. rewrite Hn2. cbn.
  rewrite negb_involutive. reflexivity.
Qed.

(** In the in-memory browser: "n1" ticked and unticked. *)
Lemma toggle_twice_witness :
  let s := {| NoteList.notes := []; NoteList.editingNote := None;
              NoteList.noteToDelete := None |} in
  let r1 := NoteList.handleToggleComplete "n1" s Dashboard.initial
              (Fake.holding [Sample.milk; Sample.cleanup]) in
  let r2 := NoteList.handleToggleComplete "n1" r1.1.1 r1.1.2 r1.2 in
  map completed (notes_of r2.2) = [Some false; None].
Proof.
  cbv zeta. set (w := Fake.holding [Sample.milk; Sample.cleanup]).
  assert (Ew : notes_of w = [] ++ Sample.milk :: [Sample.cleanup])
    by (vm_compute; reflexivity).
  clearbody w.
  assert (Hl : forall m : Note, In m [] -> id m <> "n1") by (intros m []).
  rewrite (toggle_twice (L := rw_laws) "n1" _ Dashboard.initial w
             [] [Sample.cleanup] Sample.milk (fun _ => eq_refl) Ew eq_refl Hl).
  reflexivity.
Defined.

(** X15. Confirming a deletion. With no note selected the handler does
    nothing at all. With one selected it deletes by that note's id, reloads
    the list from the store, clears the selection, and announces "Note
    deleted successfully" in every case: also when the storage refused the
    write, where the collection, and so the reloaded list, still holds the
    note. *)
Theorem delete_confirm `{P : Platform} {L : PlatformLaws P}
    (s : NoteList.state) (d : Dashboard.state) (w : World) :
  (NoteList.noteToDelete s = None ->
   NoteList.handleDeleteConfirm s d w = ((s, d), w))
  /\ (forall n, NoteList.noteToDelete s = Some n ->
        let r := NoteList.handleDeleteConfirm s d w in
        let filtered :=
          List.filter (fun m => negb (String.eqb (id m) (id n))) (notes_of w) in
        Dashboard.toasts r.1.2
        = Dashboard.toasts d
          ++ [{| Dashboard.toast_id := randomUUID (draws w);
                 Dashboard.message := "Note deleted successfully";
                 Dashboard.toast_type := "success" |}]
        /\ Dashboard.refreshKey r.1.2 = Dashboard.refreshKey d + 1
        /\ NoteList.notes r.1.1 = notes_of r.2
        /\ NoteList.noteToDelete r.1.1 = None
        /\ (storage_rejects (JSON_stringify filtered) = false ->
            notes_of r.2 = filtered)
        /\ (storage_rejects (JSON_stringify filtered) = true ->
            notes_of r.2 = notes_of w)).
Proof.
  split.
  - intros E. unfold NoteList.handleDeleteConfirm. rewrite E. reflexivity.
  - intros n E. cbv zeta. unfold NoteList.handleDeleteConfirm. rewrite E.
    rewrite !bind_run. cbn [fst snd mret IO_ret].
    set (w1 := (storage.delete (id n) w).2).
    pose proof (delete_draws (id n) w) as Hd1. fold w1 in Hd1.
    pose proof (notes_of_delete (id n) w) as Hn1. cbv zeta in Hn1.
    fold w1 in Hn1. rewrite delete_test_length in Hn1.
    match goal with |- context [Dashboard.showToast ?m ?t d w1] =>
      destruct (showToast_run m t d w1) as (Hd2 & Hn2 & _);
      set (dt := Dashboard.showToast m t d w1) in *
    end.
    destruct (loadNotes_run s dt.2) as [Hs3 Hw3]. rewrite Hs3, Hw3, Hd2.
    rewrite notes_of_getAll, Hn2, Hd1. cbn.
    split; [reflexivity|]. split; [reflexivity|]. split; [reflexivity|].
    split; [reflexivity|]. rewrite Hn1.
    split; intros ->.
    + destruct (existsb _ (notes_of w)) eqn:Ex; simpl; [reflexivity|].
      symmetry. apply filter_all. intros m Hm.
      destruct (String.eqb (id m) (id n)) eqn:Em; [|reflexivity].
      assert (existsb (fun m => String.eqb (id m) (id n)) (notes_of w) = true)
        by (apply existsb_exists; eauto).
      congruence.
    + destruct (existsb _ (notes_of w)); reflexivity.
Qed.

(** In the browser whose storage takes no write: the toast says deleted,
    the list still shows the note. *)
Lemma delete_confirm_witness :
  let s := {| NoteList.notes := [Sample.milk]; NoteList.editingNote := None;
              NoteList.noteToDelete := Some Sample.milk |} in
  let r := NoteList.handleDeleteConfirm (P := Fake.ro) s Dashboard.initial
             (Fake.holding [Sample.milk]) in
  map Dashboard.message (Dashboard.toasts r.1.2) = ["Note deleted successfully"]
  /\ NoteList.notes r.1.1 = [Sample.milk].
Proof.
  cbv zeta. set (w := Fake.holding [Sample.milk]).
  assert (Ew : notes_of (H := Fake.ro) w = [Sample.milk])
    by (vm_compute; reflexivity).
  clearbody w.
  destruct (delete_confirm (L := ro_laws)
              {| NoteList.notes := [Sample.milk]; NoteList.editingNote := None;
                 NoteList.noteToDelete := Some Sample.milk |}
              Dashboard.initial w) as [_ H].
  destruct (H Sample.milk eq_refl) as (Ht & _ & Hs & _ & _ & Hno).
  rewrite Ht, Hs, (Hno eq_refl), Ew. split; reflexivity.
Defined.

Lemma state_eta (d : Dashboard.state) :
  {| Dashboard.filters := Dashboard.filters d;
     Dashboard.refreshKey := Dashboard.refreshKey d;
     Dashboard.toasts := Dashboard.toasts d |} = d.
Proof. destruct d. reflexivity. Qed.

Lemma toasts_without (id' : string) (l : list Dashboard.ToastData) :
  ~ In id' (map Dashboard.toast_id l) ->
  List.filter (fun toast => negb (String.eqb (Dashboard.toast_id toast) id')) l
  = l.
Proof.
  intros H. apply filter_all. intros t Ht.
  destruct (String.eqb (Dashboard.toast_id t) id') eqn:E; [|reflexivity].
  apply String.eqb_eq in E. exfalso. apply H. rewrite <- E.
  apply in_map. exact Ht.
Qed.

(** X16. Toasts. Removing the toast that [showToast] has just added gives
    the Dashboard state back, provided no older toast has the same id; and
    removing an id that no toast has changes nothing. *)
Theorem toast_show_then_remove `{P : Platform} (m : string) (t : option string)
    (d : Dashboard.state) (w : World) :
  ~ In (randomUUID (draws w)) (map Dashboard.toast_id (Dashboard.toasts d)) ->
  Dashboard.removeToast (randomUUID (draws w)) (Dashboard.showToast m t d w).1
  = d
  /\ Dashboard.removeToast (randomUUID (draws w)) d = d.
Proof.
  intros H. split.
  - destruct (showToast_run m t d w) as [-> _]. unfold Dashboard.removeToast.
    cbn [Dashboard.filters Dashboard.refreshKey Dashboard.toasts].
    rewrite List.filter_app, toasts_without by exact H. simpl.
    rewrite String.eqb_refl. simpl. rewrite app_nil_r. apply state_eta.
  - unfold Dashboard.removeToast. rewrite toasts_without by exact H.
    apply state_eta.
Qed.

(** In the in-memory browser: a toast shown over another, then dismissed. *)
Lemma toast_show_then_remove_witness :
  let d := (Dashboard.showToast "saved" None Dashboard.initial fresh_world).1 in
  let w := (Dashboard.showToast "saved" None Dashboard.initial fresh_world).2 in
  map Dashboard.toast_id (Dashboard.toasts d) = ["u"]
  /\ Dashboard.removeToast "u0" (Dashboard.showToast "again" None d w).1 = d.
Proof.
  cbv zeta. split; [reflexivity|].
  destruct (toast_show_then_remove "again" None
              (Dashboard.showToast "saved" None Dashboard.initial fresh_world).1
              (Dashboard.showToast "saved" None Dashboard.initial fresh_world).2)
    as [H _]; [|exact H].
  simpl. intuition discriminate.
Defined.

(** * More strings: trim, split and join *)

Lemma trimEnd_keep (c : ascii) (s : string) :
  JS.isWhiteSpace c = false ->
  JS.trimEnd (String c s) = String c (JS.trimEnd s).
Proof.
  intros H. simpl. rewrite H. destruct (JS.trimEnd s); reflexivity.
Qed.

Lemma trimEnd_cons (c : ascii) (s : string) :
  JS.trimEnd (String c s) =
  match JS.trimEnd s with
  | EmptyString => if JS.isWhiteSpace c then EmptyString else String c EmptyString
  | t => String c t
  end.
Proof. reflexivity. Qed.

Lemma trimEnd_idem (s : string) : JS.trimEnd (JS.trimEnd s) = JS.trimEnd s.
Proof.
  induction s as [|c s IH]; [reflexivity|].
  rewrite trimEnd_cons. destruct (JS.trimEnd s) as [|a t] eqn:E.
  - destruct (JS.isWhiteSpace c) eqn:Ec; [reflexivity|].
    rewrite trimEnd_cons. simpl. rewrite Ec. reflexivity.
  - rewrite trimEnd_cons, IH. reflexivity.
Qed.

Lemma trimStart_head (s : string) :
  match JS.trimStart s with
  | EmptyString => True
  | String c _ => JS.isWhiteSpace c = false
  end.
Proof.
  induction s as [|c s IH]; simpl; [exact I|].
  destruct (JS.isWhiteSpace c) eqn:E; [exact IH|exact E].
Qed.

(** Trimming twice is trimming once. *)
Lemma trim_idem (s : string) : JS.trim (JS.trim s) = JS.trim s.
Proof.
  unfold JS.trim. pose proof (trimStart_head s) as H.
  destruct (JS.trimStart s) as [|c t]; [reflexivity|].
  rewrite (trimEnd_keep c t H). cbn [JS.trimStart]. rewrite H.
  rewrite (trimEnd_keep c _ H), trimEnd_idem. reflexivity.
Qed.

(** White space in front goes with the trim. *)
Lemma trim_space (c : ascii) (s : string) :
  JS.isWhiteSpace c = true -> JS.trim (String c s) = JS.trim s.
Proof. intros H. unfold JS.trim. simpl. rewrite H. reflexivity. Qed.

Lemma occurrences_trimStart (c : ascii) (s : string) :
  occurrences c s = 0%nat -> occurrences c (JS.trimStart s) = 0%nat.
Proof.
  induction s as [|a s IH]; simpl; [reflexivity|]. intros H.
  destruct (JS.isWhiteSpace a); [apply IH; lia|exact H].
Qed.

Lemma occurrences_trimEnd (c : ascii) (s : string) :
  occurrences c s = 0%nat -> occurrences c (JS.trimEnd s) = 0%nat.
Proof.
  induction s as [|a s IH]; [reflexivity|]. rewrite trimEnd_cons.
  cbn [occurrences].
  intros H.
  assert (Ha : (if Ascii.eqb a c then 1%nat else 0%nat) = 0%nat) by lia.
  assert (Hs : occurrences c (JS.trimEnd s) = 0%nat) by (apply IH; lia).
  destruct (JS.trimEnd s) as [|b t].
  - destruct (JS.isWhiteSpace a); simpl; lia.
  - cbn [occurrences] in *. lia.
Qed.

Lemma split_not_nil (c : ascii) (s : string) : JS.split c s <> [].
Proof.
  destruct s as [|a s]; simpl; [discriminate|].
  destruct (Ascii.eqb a c); [discriminate|].
  destruct (JS.split c s); discriminate.
Qed.

(** A piece of a split holds no separator. *)
Lemma split_pieces (c : ascii) (s t : string) :
  In t (JS.split c s) -> occurrences c t = 0%nat.
Proof.
  revert t. induction s as [|a s IH]; simpl; intros t.
  - intros [<-|[]]. reflexivity.
  - destruct (Ascii.eqb a c) eqn:E.
    + intros [<-|H]; [reflexivity|apply IH; exact H].
    + destruct (JS.split c s) as [|p ps] eqn:Es.
      * intros [<-|[]]. simpl. rewrite E. reflexivity.
      * intros [<-|H].
        -- simpl. rewrite E. apply IH. left. reflexivity.
        -- apply IH. right. exact H.
Qed.

(** There is one piece more than there are separators. *)
Lemma split_length (c : ascii) (s : string) :
  length (JS.split c s) = S (occurrences c s).
Proof.
  induction s as [|a s IH]; simpl; [reflexivity|].
  destruct (Ascii.eqb a c); simpl; [rewrite IH; reflexivity|].
  destruct (JS.split c s) as [|p ps]; simpl in *; [discriminate|exact IH].
Qed.

Lemma split_whole (c : ascii) (s : string) :
  occurrences c s = 0%nat -> JS.split c s = [s].
Proof.
  induction s as [|a s IH]; simpl; [reflexivity|].
  destruct (Ascii.eqb a c); [discriminate|]. simpl. intros H.
  rewrite (IH H). reflexivity.
Qed.

Lemma split_at (c : ascii) (a r : string) :
  occurrences c a = 0%nat ->
  JS.split c (a +:+ String c r) = a :: JS.split c r.
Proof.
  induction a as [|x a IH].
  - intros _. change ("" +:+ String c r) with (String c r).
    simpl. rewrite Ascii.eqb_refl. reflexivity.
  - rewrite app_cons. simpl.
    destruct (Ascii.eqb x c) eqn:E; [discriminate|]. simpl. intros H.
    rewrite (IH H). reflexivity.
Qed.

(** * The editor's tags (NoteEditor.tsx) *)

Lemma length_pos (t : string) : (0 <? String.length t)%nat = true <-> t <> "".
Proof.
  destruct t; simpl; split; intros H; try reflexivity; try discriminate.
  contradiction.
Qed.

Lemma parseTags_tags (s t : string) :
  In t (NoteEditor.parseTags s) -> clean_tag t.
Proof.
  unfold NoteEditor.parseTags. rewrite filter_In, in_map_iff.
  intros [(p & <- & Hp) Hlen]. apply split_pieces in Hp.
  split; [apply length_pos; exact Hlen|]. split; [apply trim_idem|].
  unfold JS.trim. apply occurrences_trimEnd, occurrences_trimStart. exact Hp.
Qed.

Lemma parseTags_one (t : string) :
  occurrences "," t = 0%nat ->
  NoteEditor.parseTags t
  = if (0 <? String.length (JS.trim t))%nat then [JS.trim t] else [].
Proof.
  intros H. unfold NoteEditor.parseTags. rewrite (split_whole _ _ H).
  reflexivity.
Qed.

Lemma parseTags_cons (t r : string) :
  occurrences "," t = 0%nat ->
  NoteEditor.parseTags (t +:+ String "," r)
  = (if (0 <? String.length (JS.trim t))%nat then [JS.trim t] else [])
    ++ NoteEditor.parseTags r.
Proof.
  intros H. unfold NoteEditor.parseTags. rewrite (split_at _ _ _ H).
  simpl. destruct (0 <? String.length (JS.trim t))%nat; reflexivity.
Qed.

Lemma parseTags_space (r : string) :
  NoteEditor.parseTags (String " " r) = NoteEditor.parseTags r.
Proof.
  unfold NoteEditor.parseTags. simpl.
  pose proof (split_not_nil "," r) as H.
  destruct (JS.split "," r) as [|p ps]; [contradiction|].
  simpl. rewrite (trim_space " " p eq_refl). reflexivity.
Qed.

(** Reading back the tags that were joined for the input field. *)
Lemma parseTags_join (ts : list string) :
  Forall clean_tag ts -> NoteEditor.parseTags (JS.join ", " ts) = ts.
Proof.
  induction ts as [|t ts IH]; intros H; [reflexivity|].
  inversion H as [|? ? (Hne & Htrim & Hc) Hts]; subst.
  assert (Hlen : (0 <? String.length (JS.trim t))%nat = true)
    by (rewrite Htrim; apply length_pos; exact Hne).
  destruct ts as [|t' ts].
  - simpl. rewrite (parseTags_one t Hc), Hlen, Htrim. reflexivity.
  - change (JS.join ", " (t :: t' :: ts))
      with (t +:+ String "," (String " " (JS.join ", " (t' :: ts)))).
    rewrite (parseTags_cons t _ Hc), Hlen, Htrim, parseTags_space, (IH Hts).
    reflexivity.
Qed.

(** X17. Whatever is typed in the tags field of the editor, the tags that
    are saved are clean: none is empty, none has white space around it, none
    holds a comma. *)
Theorem saved_tags_clean (tags' : string) :
  Forall clean_tag (NoteEditor.parseTags tags')
  /\ (forall f ts,
        up_tags (NoteEditor.updates f) = Some (Some ts) ->
        ts <> [] /\ Forall clean_tag ts).
Proof.
  assert (H : forall s, Forall clean_tag (NoteEditor.parseTags s)).
  { intros s. apply List.Forall_forall. intros t. apply parseTags_tags. }
  split; [apply H|]. intros f ts. unfold NoteEditor.updates. simpl.
  destruct (NoteEditor.parseTags (NoteEditor.form_tags f)) as [|t l] eqn:E;
    simpl; [discriminate|].
  intros [= <-]. split; [discriminate|]. rewrite <- E. apply H.
Qed.

(** X18. Clean tags survive the editor: the text the editor shows for a list
    of clean tags (joined with ", ") reads back as the same list, so that
    opening a note and saving it writes its tags as they were; a note
    without tags, or with an empty list of them, is saved without tags. *)
Theorem tags_round_trip (n : Note) :
  (forall ts, Forall clean_tag ts ->
     NoteEditor.parseTags (JS.join ", " ts) = ts)
  /\ (forall ts, tags n = Some ts -> ts <> [] -> Forall clean_tag ts ->
        up_tags (NoteEditor.updates (NoteEditor.open n)) = Some (Some ts))
  /\ (tags n = None \/ tags n = Some [] ->
      up_tags (NoteEditor.updates (NoteEditor.open n)) = Some None).
Proof.
  split; [apply parseTags_join|]. split.
  - intros ts E Hne Hts. unfold NoteEditor.updates, NoteEditor.open. simpl.
    rewrite E. simpl.
    assert (Hj : JS.truthy (JS.join ", " ts) = true).
    { destruct ts as [|t ts]; [contradiction|].
      inversion Hts as [|? ? (Ht & _) _]; subst.
      destruct t as [|c t]; [contradiction|].
      destruct ts; reflexivity. }
    rewrite Hj, (parseTags_join ts Hts).
    destruct ts; [contradiction|reflexivity].
  - intros [E|E]; unfold NoteEditor.updates, NoteEditor.open; simpl;
      rewrite E; reflexivity.
Qed.

(** * The card (NoteCard.tsx) and the colours (utils/colors.ts) *)

(** X19. A card is marked as long exactly when its content has more than 400
    code units or at least 8 line feeds. *)
Theorem long_content (n : Note) :
  NoteCard.isLongContent n = true
  <-> (400 < String.length (content n))%nat
      \/ (8 <= occurrences "010" (content n))%nat.
Proof.
  unfold NoteCard.isLongContent, NoteCard.estimatedLines, JS.ceil_div.
  rewrite orb_true_iff, !Nat.ltb_lt, split_length.
  assert (H : (8 < (String.length (content n) + (50 - 1)) / 50
               <-> 400 < String.length (content n))%nat).
  { split; intros H.
    - destruct (Nat.le_gt_cases (String.length (content n)) 400) as [Hle|Hgt];
        [|exact Hgt].
      exfalso. apply (Nat.lt_irrefl 8). eapply Nat.lt_le_trans; [exact H|].
      apply Nat.lt_succ_r. apply Nat.Div0.div_lt_upper_bound. lia.
    - apply (Nat.div_le_lower_bound _ 50 9); lia. }
  rewrite H. lia.
Qed.

(** X20. The colours tell the types apart, and a type button that is active
    wears the colours of the badge of its type: its classes are the base
    classes, the badge classes of the type and a shadow; an inactive button
    looks the same for every type, and never like an active one. *)
Theorem button_colours (t t' : NoteType) :
  colors.getTypeButtonClasses t true
  = "px-3 py-1.5 rounded-md text-xs font-medium transition-all duration-200 border"
    +:+ " " +:+ colors.getTypeColorClasses t +:+ " shadow-md"
  /\ colors.getTypeButtonClasses t false = colors.getTypeButtonClasses t' false
  /\ colors.getTypeButtonClasses t true <> colors.getTypeButtonClasses t' false
  /\ (colors.getTypeColorClasses t = colors.getTypeColorClasses t' -> t = t').
Proof.
  split; [destruct t; reflexivity|]. split; [reflexivity|].
  split; [destruct t; discriminate|].
  destruct t, t'; intros H; try reflexivity; discriminate H.
Qed.

(** * Capturing and editing (Dashboard.tsx, NoteCapture.tsx, NoteEditor.tsx) *)

Lemma typeName_capital (t : NoteType) :
  JS.toUpperCase (JS.charAt0 (NoteType_string t))
  +:+ JS.slice1 (NoteType_string t)
  = match t with note => "Note" | todo => "Todo" | snippet => "Snippet" end.
Proof. destruct t; reflexivity. Qed.

(** [handleNoteCreate], call by call. *)
Lemma handleNoteCreate_run `{P : Platform} {L : PlatformLaws P}
    (t : NoteType) (c : string) (ti : option string) (d : Dashboard.state)
    (w : World) :
  let x := {| in_type := t; in_content := c; in_tags := None;
              in_completed := None; in_title := JS.or_undefined ti |} in
  let r := Dashboard.handleNoteCreate t c ti d w in
  r.1 = {| Dashboard.filters := Dashboard.filters d;
           Dashboard.refreshKey := Dashboard.refreshKey d + 1;
           Dashboard.toasts :=
             Dashboard.toasts d
             ++ [{| Dashboard.toast_id := randomUUID (S (draws w));
                    Dashboard.message :=
                      match t with
                      | note => "Note" | todo => "Todo" | snippet => "Snippet"
                      end +:+ " created successfully!";
                    Dashboard.toast_type := "success" |}] |}
  /\ notes_of r.2 = notes_of (storage.create x w).2.
Proof.
  cbv zeta. unfold Dashboard.handleNoteCreate. rewrite !bind_run.
  cbn [fst snd mret IO_ret]. rewrite typeName_capital.
  match goal with |- context [Dashboard.showToast ?m ?ty d ?w1] =>
    destruct (showToast_run m ty d w1) as (Hd & Hn & _);
    destruct (create_frame
                {| in_type := t; in_content := c; in_tags := None;
                   in_completed := None; in_title := JS.or_undefined ti |} w)
      as [_ Hdr]
  end.
  rewrite Hd, Hn, Hdr. split; reflexivity.
Qed.

Lemma or_undefined_twice (s : option string) :
  JS.or_undefined (JS.or_undefined s) = JS.or_undefined s.
Proof.
  destruct s as [s|]; [|reflexivity]. simpl.
  destruct (JS.truthy s) eqn:E; [|reflexivity]. simpl. rewrite E. reflexivity.
Qed.

(** X21. Submitting the capture form. A content that is blank (empty or
    white space only) creates nothing: no note, no toast, and the form keeps
    what was typed. Otherwise one note goes to the end of the collection
    (when the storage takes the write): its content is the trimmed text,
    which is not empty; its title is the trimmed title, or absent when that
    is empty; it has no tags and no completion flag; the form is emptied,
    the type kept; and the toast names the type with a capital. *)
Theorem capture_submit `{P : Platform} {L : PlatformLaws P}
    (f : NoteCapture.form) (d : Dashboard.state) (w : World) :
  (JS.trim (NoteCapture.form_content f) = "" ->
   NoteCapture.handleSubmit f d w = ((f, d), w))
  /\ (JS.trim (NoteCapture.form_content f) <> "" ->
      let r := NoteCapture.handleSubmit f d w in
      let n :=
        {| id := randomUUID (draws w);
           type := NoteCapture.form_type f;
           content := JS.trim (NoteCapture.form_content f);
           createdAt := Date_now (reads w);
           updatedAt := Date_now (S (reads w));
           tags := None; completed := None;
           title := if JS.truthy (JS.trim (NoteCapture.form_title f))
                    then Some (JS.trim (NoteCapture.form_title f)) else None |} in
      JS.trim (content n) = content n
      /\ (forall t, title n = Some t -> t <> "" /\ JS.trim t = t)
      /\ notes_of r.2
         = (if storage_rejects (JSON_stringify (notes_of w ++ [n]))
            then notes_of w else notes_of w ++ [n])
      /\ r.1.1 = {| NoteCapture.form_content := "";
                    NoteCapture.form_title := "";
                    NoteCapture.form_type := NoteCapture.form_type f |}
      /\ map Dashboard.message (Dashboard.toasts r.1.2)
         = map Dashboard.message (Dashboard.toasts d)
           ++ [match NoteCapture.form_type f with
               | note => "Note" | todo => "Todo" | snippet => "Snippet"
               end +:+ " created successfully!"]
      /\ Dashboard.refreshKey r.1.2 = Dashboard.refreshKey d + 1).
Proof.
  unfold NoteCapture.handleSubmit. split.
  - intros ->. reflexivity.
  - intros Hne. apply truthy_not_empty in Hne. cbv zeta. rewrite Hne.
    rewrite bind_run. cbn [fst snd mret IO_ret].
    match goal with |- context [Dashboard.handleNoteCreate ?t ?c ?ti d w] =>
      destruct (handleNoteCreate_run t c ti d w) as [Hd Hn];
      set (r := Dashboard.handleNoteCreate t c ti d w) in *
    end.
    cbv zeta in Hd, Hn. rewrite Hd, Hn. clear Hd Hn r.
    rewrite or_undefined_twice.
    match goal with |- context [storage.create ?x w] =>
      pose proof (notes_of_create x w) as Hc;
      destruct (create_run x w) as [Hx _]
    end.
    cbv zeta in Hc, Hx. rewrite Hc, Hx. clear Hc Hx.
    split; [apply trim_idem|]. split.
    + intros t. destruct (JS.truthy (JS.trim (NoteCapture.form_title f))) eqn:E;
        [|discriminate].
      intros [= <-]. split; [apply truthy_not_empty; exact E|apply trim_idem].
    + split; [reflexivity|]. split; [reflexivity|].
      cbn. rewrite map_app. split; reflexivity.
Qed.

(** In the in-memory browser: a todo typed with blanks around it. *)
Lemma capture_submit_witness :
  let f := {| NoteCapture.form_content := "  Water the plants ";
              NoteCapture.form_title := "   ";
              NoteCapture.form_type := todo |} in
  let r := NoteCapture.handleSubmit f Dashboard.initial fresh_world in
  map content (notes_of r.2) = ["Water the plants"]
  /\ map title (notes_of r.2) = [None]
  /\ map Dashboard.message (Dashboard.toasts r.1.2)
     = ["Todo created successfully!"].
Proof.
  cbv zeta.
  destruct (capture_submit (L := rw_laws)
              {| NoteCapture.form_content := "  Water the plants ";
                 NoteCapture.form_title := "   ";
                 NoteCapture.form_type := todo |}
              Dashboard.initial fresh_world) as [_ H].
  destruct H as (_ & _ & Hn & _ & Hm & _); [discriminate|].
  rewrite Hn, Hm. repeat split.
Defined.

(** What the editor's bundle makes of a stored note. *)
Lemma merge_updates (old : Note) (f : NoteEditor.form) (t : Z) :
  merge old (typed (NoteEditor.updates f)) t
  = {| id := id old;
       type := NoteEditor.form_type f;
       content := NoteEditor.form_content f;
       createdAt := createdAt old;
       updatedAt := t;
       tags := match NoteEditor.parseTags (NoteEditor.form_tags f) with
               | [] => None
               | ts => Some ts
               end;
       completed := match NoteEditor.form_type f with
                    | todo => Some (NoteEditor.form_completed f)
                    | _ => None
                    end;
       title := if JS.truthy (NoteEditor.form_title f)
                then Some (NoteEditor.form_title f) else None |}.
Proof.
  unfold merge, spread, typed, NoteEditor.updates. simpl.
  destruct (NoteEditor.parseTags (NoteEditor.form_tags f)),
    (NoteEditor.form_type f); reflexivity.
Qed.

(** [handleSubmit] of the editor, call by call. *)
Lemma editor_submit_run `{P : Platform} {L : PlatformLaws P}
    (note' : Note) (f : NoteEditor.form) (s : NoteList.state)
    (d : Dashboard.state) (w : World) :
  let r := NoteEditor.handleSubmit note' f s d w in
  let w1 := (storage.update (id note') (typed (NoteEditor.updates f)) w).2 in
  notes_of r.2 = notes_of w1
  /\ r.1.1.2 = {| NoteList.notes := notes_of w1;
                  NoteList.editingNote := None;
                  NoteList.noteToDelete := NoteList.noteToDelete s |}
  /\ r.1.2
     = {| Dashboard.filters := Dashboard.filters d;
          Dashboard.refreshKey := Dashboard.refreshKey d + 1;
          Dashboard.toasts :=
            Dashboard.toasts d
            ++ [{| Dashboard.toast_id := randomUUID (draws w);
                   Dashboard.message := "Note updated successfully!";
                   Dashboard.toast_type := "success" |}] |}.
Proof.
  cbv zeta. unfold NoteEditor.handleSubmit, NoteList.handleEditClose.
  rewrite !bind_run. cbn [fst snd mret IO_ret].
  set (w1 := (storage.update (id note') (typed (NoteEditor.updates f)) w).2).
  pose proof (update_draws (id note') (typed (NoteEditor.updates f)) w) as Hdr.
  fold w1 in Hdr.
  match goal with |- context [Dashboard.showToast ?m ?t d w1] =>
    destruct (showToast_run m t d w1) as (Hd & Hn & _);
    set (dt := Dashboard.showToast m t d w1) in *
  end.
  match goal with |- context [NoteList.loadNotes ?s0 dt.2] =>
    destruct (loadNotes_run s0 dt.2) as [Hs Hw]
  end.
  rewrite Hs, Hw, Hd, notes_of_getAll, Hn, Hdr.
  split; [reflexivity|]. split; reflexivity.
Qed.

(** X22. Saving from the editor. The note of the edited id gets every
    editable field from the form: content, type, title (absent when the
    field is empty), tags (the clean tags read from the field, absent when
    there are none) and the completion flag, which is kept only on a todo;
    its id and createdAt stay and its updatedAt is the time of the call.
    When no stored note has the id any more, nothing is written. In every
    case the editor closes, the list reloads the store, and the toast says
    "Note updated successfully!". *)
Theorem editor_save `{P : Platform} {L : PlatformLaws P}
    (note' : Note) (f : NoteEditor.form) (s : NoteList.state)
    (d : Dashboard.state) (w : World) :
  let r := NoteEditor.handleSubmit note' f s d w in
  map Dashboard.message (Dashboard.toasts r.1.2)
  = map Dashboard.message (Dashboard.toasts d) ++ ["Note updated successfully!"]
  /\ NoteList.notes r.1.1.2 = notes_of r.2
  /\ NoteList.editingNote r.1.1.2 = None
  /\ ((forall m, In m (notes_of w) -> id m <> id note') ->
      notes_of r.2 = notes_of w /\ localStorage r.2 = localStorage w)
  /\ (forall l1 old l2,
        notes_of w = l1 ++ old :: l2 -> id old = id note' ->
        (forall m, In m l1 -> id m <> id note') ->
        let new :=
          {| id := id old;
             type := NoteEditor.form_type f;
             content := NoteEditor.form_content f;
             createdAt := createdAt old;
             updatedAt := Date_now (reads w);
             tags := match NoteEditor.parseTags (NoteEditor.form_tags f) with
                     | [] => None
                     | ts => Some ts
                     end;
             completed := match NoteEditor.form_type f with
                          | todo => Some (NoteEditor.form_completed f)
                          | _ => None
                          end;
             title := if JS.truthy (NoteEditor.form_title f)
                      then Some (NoteEditor.form_title f) else None |} in
        notes_of r.2
        = (if storage_rejects (JSON_stringify (l1 ++ new :: l2))
           then l1 ++ old :: l2 else l1 ++ new :: l2)).
Proof.
  cbv zeta. destruct (editor_submit_run note' f s d w) as (Hn & Hs & Hd).
  cbv zeta in Hn, Hs, Hd. rewrite Hs, Hd, Hn. cbn.
  split; [rewrite map_app; reflexivity|]. split; [reflexivity|].
  split; [reflexivity|]. split.
  - intros Hmiss.
    assert (E : JS.findIndex (fun n => String.eqb (id n) (id note'))
                  (notes_of w) = None).
    { apply findIndex_None. intros n Hin. apply String.eqb_neq. auto. }
    split.
    + rewrite notes_of_update, E. reflexivity.
    + unfold NoteEditor.handleSubmit, NoteList.handleEditClose.
      rewrite !bind_run. cbn [fst snd mret IO_ret].
      rewrite update_run, E. cbn [fst snd].
      match goal with |- context [NoteList.loadNotes ?s0 ?w0] =>
        destruct (loadNotes_run s0 w0) as [_ ->]
      end.
      destruct (getAll_frame
                  (Dashboard.showToast "Note updated successfully!" None d
                     (storage.getAll w).2).2) as [-> _].
      cbn. apply getAll_frame.
  - intros l1 old l2 El Eid Hl1.
    destruct (update_at_first (id note') (typed (NoteEditor.updates f)) w
                l1 l2 old El Eid Hl1) as (_ & _ & _ & Hu).
    rewrite Hu, merge_updates. reflexivity.
Qed.

(** In the in-memory browser: a snippet turned into a tagged note. *)
Lemma editor_save_witness :
  let f := {| NoteEditor.form_content := "Refactor the parser";
              NoteEditor.form_title := "";
              NoteEditor.form_type := note;
              NoteEditor.form_tags := "work, , parser ,";
              NoteEditor.form_completed := true;
              NoteEditor.isSaving := false; NoteEditor.error := "" |} in
  let r := NoteEditor.handleSubmit Sample.cleanup f
             {| NoteList.notes := []; NoteList.editingNote := Some Sample.cleanup;
                NoteList.noteToDelete := None |}
             Dashboard.initial (Fake.holding [Sample.milk; Sample.cleanup]) in
  map tags (notes_of r.2) = [Some ["home"]; Some ["work"; "parser"]]
  /\ map title (notes_of r.2) = [None; None]
  /\ map completed (notes_of r.2) = [Some false; None]
  /\ map identity_of (notes_of r.2)
     = [identity_of Sample.milk; identity_of Sample.cleanup].
Proof.
  cbv zeta. set (w := Fake.holding [Sample.milk; Sample.cleanup]).
  assert (Ew : notes_of w = [Sample.milk] ++ Sample.cleanup :: [])
    by (vm_compute; reflexivity).
  clearbody w.
  match goal with |- context [NoteEditor.handleSubmit ?n ?f ?s ?d w] =>
    destruct (editor_save (L := rw_laws) n f s d w) as (_ & _ & _ & _ & H)
  end.
  rewrite (H [Sample.milk] Sample.cleanup [] Ew eq_refl).
  - repeat split.
  - intros m [<-|[]]. discriminate.
Defined.

Lemma editor_normal_fix (n : Note) (t : Z) :
  editor_normal n ->
  merge n (typed (NoteEditor.updates (NoteEditor.open n))) t = touched n t.
Proof.
  intros (Hti & Hta & Hco). rewrite merge_updates. unfold touched.
  cbn [NoteEditor.open NoteEditor.form_type NoteEditor.form_content
       NoteEditor.form_tags NoteEditor.form_title NoteEditor.form_completed].
  f_equal.
  - destruct (tags n) as [ts|]; [|reflexivity]. destruct Hta as [Hne Hts].
    simpl.
    assert (Hj : JS.truthy (JS.join ", " ts) = true).
    { destruct ts as [|a ts]; [contradiction|].
      inversion Hts as [|? ? (Ha & _) _]; subst.
      destruct a as [|c a]; [contradiction|]. destruct ts; reflexivity. }
    rewrite Hj, (parseTags_join ts Hts). destruct ts; [contradiction|reflexivity].
  - destruct (type n); try (symmetry; exact Hco).
    destruct Hco as [b ->]. reflexivity.
  - destruct (title n) as [ti|]; [|reflexivity]. simpl.
    destruct ti; [contradiction|reflexivity].
Qed.

(** X23. Opening a note in the editor and saving it untouched changes
    nothing but its updatedAt, for a note whose title is not the empty
    string, whose tags (if any) are a non-empty list of clean tags, and
    which has a completion flag exactly when it is a todo, on storage that
    takes the write. *)
Theorem editor_round_trip `{P : Platform} {L : PlatformLaws P}
    (n : Note) (s : NoteList.state) (d : Dashboard.state) (w : World)
    (l1 l2 : list Note) :
  editor_normal n ->
  notes_of w = l1 ++ n :: l2 ->
  (forall m, In m l1 -> id m <> id n) ->
  storage_rejects
    (JSON_stringify (l1 ++ touched n (Date_now (reads w)) :: l2)) = false ->
  notes_of (NoteEditor.handleSubmit n (NoteEditor.open n) s d w).2
  = l1 ++ touched n (Date_now (reads w)) :: l2.
Proof.
  intros Hn El Hl1 Hok.
  destruct (editor_submit_run n (NoteEditor.open n) s d w) as (-> & _).
  destruct (update_at_first (id n)
              (typed (NoteEditor.updates (NoteEditor.open n))) w
              l1 l2 n El eq_refl Hl1) as (_ & _ & _ & ->).
  rewrite (editor_normal_fix n _ Hn), Hok. reflexivity.
Qed.

(** In the in-memory browser: the snippet "n2" opened and saved. *)
Lemma editor_round_trip_witness :
  let w := Fake.holding [Sample.milk; Sample.cleanup] in
  notes_of (NoteEditor.handleSubmit Sample.cleanup
              (NoteEditor.open Sample.cleanup)
              {| NoteList.notes := []; NoteList.editingNote := None;
                 NoteList.noteToDelete := None |} Dashboard.initial w).2
  = [Sample.milk; touched Sample.cleanup 1700000000000].
Proof.
  cbv zeta. set (w := Fake.holding [Sample.milk; Sample.cleanup]).
  assert (Ew : notes_of w = [Sample.milk] ++ Sample.cleanup :: [])
    by (vm_compute; reflexivity).
  assert (Er : reads w = 0%nat) by reflexivity.
  clearbody w.
  rewrite (editor_round_trip (L := rw_laws) Sample.cleanup _ _ w
             [Sample.milk] []).
  - rewrite Er. reflexivity.
  - split; [discriminate|]. split; [exact I|reflexivity].
  - exact Ew.
  - intros m [<-|[]]. discriminate.
  - reflexivity.
Defined.
